(** * Poru: node pool, player registry, packet routing and track resolution

    A shallow embedding of the [Poru] class (the orchestration layer of
    the Lavalink client) and the properties of its specification.

    Conventions of the embedding:
    - a JavaScript [number] is an IEEE 754 binary64 value ([spec_float]
      with precision 53 and maximal exponent 1024);
    - a JavaScript [string] is the sequence of bytes of its UTF-8
      encoding ([String.string]); texts are well formed, so the
      [URIError] that [encodeURIComponent] raises on a lone surrogate is
      outside the model, and [toLowerCase] acts on the ASCII letters;
    - a JavaScript [Map] is an association list in insertion order;
    - [undefined] and [null] are [None];
    - a method is a computation on the instance ([this]) that returns a
      value or throws, and keeps the mutations made before a throw;
    - objects that are shared by reference (the [Player]s) live in a
      heap and are named by their address. *)

From Stdlib Require Import List String Ascii ZArith Bool Arith Lia.
From Stdlib Require Import Sorted Permutation.
From Stdlib Require Import Floats.SpecFloat.
Import ListNotations.
Open Scope string_scope.

(** ** JavaScript numbers *)

Module JsNumber.

Definition prec : Z := 53.
Definition emax : Z := 1024.

Definition number : Type := spec_float.

(** The number denoted by an integer literal. *)
Definition of_Z (z : Z) : number := binary_normalize prec emax z 0 false.

Definition zero : number := S754_zero false.
Definition hundred : number := Eval vm_compute in of_Z 100.

Definition sub : number -> number -> number := SFsub prec emax.
Definition mul : number -> number -> number := SFmul prec emax.
Definition div : number -> number -> number := SFdiv prec emax.

(** [x < y] *)
Definition ltb : number -> number -> bool := SFltb.

(** [v > 0] and [v < 0]; both are false of [NaN] and of the zeros. *)
Definition is_pos (v : number) : bool := ltb zero v.
Definition is_neg (v : number) : bool := ltb v zero.

(** [x] carries the sign [s], or is [NaN]. *)
Definition sign_is (s : bool) (x : number) : Prop :=
  match x with
  | S754_zero s' | S754_infinity s' | S754_finite s' _ _ => s' = s
  | S754_nan => True
  end.

End JsNumber.

(** ** JavaScript strings *)

Module JsString.

(** [s] converted to a boolean: every string but the empty one. *)
Definition truthy (s : string) : bool :=
  match s with EmptyString => false | String _ _ => true end.

Definition in_range (lo hi : nat) (c : ascii) : bool :=
  (lo <=? nat_of_ascii c)%nat && (nat_of_ascii c <=? hi)%nat.

Definition is_upper : ascii -> bool := in_range 65 90.
Definition is_lower : ascii -> bool := in_range 97 122.
Definition is_digit : ascii -> bool := in_range 48 57.

Definition lower_char (c : ascii) : ascii :=
  if is_upper c then ascii_of_nat (nat_of_ascii c + 32) else c.

(** [String.prototype.toLowerCase] *)
Fixpoint toLowerCase (s : string) : string :=
  match s with
  | EmptyString => EmptyString
  | String c s' => String (lower_char c) (toLowerCase s')
  end.

(** [Array.prototype.includes] on an array of strings. *)
Definition includes (l : list string) (x : string) : bool :=
  existsb (String.eqb x) l.

(** The characters [encodeURIComponent] leaves alone: the ASCII
    letters and digits and [- _ . ! ~ * ' ( )]. *)
Definition mark (c : ascii) : bool :=
  match nat_of_ascii c with
  | 45 | 95 | 46 | 33 | 126 | 42 | 39 | 40 | 41 => true
  | _ => false
  end.

Definition unescaped (c : ascii) : bool :=
  is_upper c || is_lower c || is_digit c || mark c.

Definition hex_digit (n : nat) : ascii :=
  if (n <? 10)%nat then ascii_of_nat (48 + n) else ascii_of_nat (55 + n).

(** [encodeURIComponent]: every other byte of the UTF-8 encoding
    becomes [%XX], in upper-case hexadecimal. *)
Fixpoint encodeURIComponent (s : string) : string :=
  match s with
  | EmptyString => EmptyString
  | String c s' =>
      if unescaped c then String c (encodeURIComponent s')
      else
        String "%"
          (String (hex_digit (nat_of_ascii c / 16))
             (String (hex_digit (nat_of_ascii c mod 16))
                (encodeURIComponent s')))
  end.

Definition hex_value (c : ascii) : option nat :=
  if is_digit c then Some (nat_of_ascii c - 48)
  else if in_range 65 70 c then Some (nat_of_ascii c - 55)
  else if in_range 97 102 c then Some (nat_of_ascii c - 87)
  else None.

(** Percent-decoding, the inverse the specification speaks of
    ([decodeURIComponent]): [%XX] stands for the byte [XX], and a [%]
    that is not followed by two hexadecimal digits is an error. *)
Fixpoint percentDecode (s : string) : option string :=
  match s with
  | EmptyString => Some EmptyString
  | String "%" (String h (String l s')) =>
      match hex_value h, hex_value l, percentDecode s' with
      | Some a, Some b, Some r => Some (String (ascii_of_nat (16 * a + b)) r)
      | _, _, _ => None
      end
  | String "%" _ => None
  | String c s' =>
      match percentDecode s' with
      | Some r => Some (String c r)
      | None => None
      end
  end.

(** The test of the regular expression [/^https?:\/\//]. *)
Definition isUrl (query : string) : bool :=
  String.prefix "http://" query || String.prefix "https://" query.

End JsString.

(** ** JavaScript arrays *)

Module JsArray.
Import JsNumber.

Section Sort.
Context {A : Type}.
Variable comparefn : A -> A -> number.

(** [x] goes in front of the first element that [comparefn] places
    after it; elements that compare equal keep their order. *)
Fixpoint insert (x : A) (l : list A) : list A :=
  match l with
  | [] => [x]
  | y :: l' =>
      if is_pos (comparefn y x) then x :: y :: l'
      else y :: insert x l'
  end.

(** [Array.prototype.sort(comparefn)]: a stable sort.  For a
    consistent comparator every stable sort gives this list. *)
Definition sort (l : list A) : list A :=
  fold_left (fun sorted x => insert x sorted) l [].

(** [a] may stand in front of [b]: [comparefn(a, b)] is not
    positive. *)
Definition in_order (a b : A) : Prop := is_pos (comparefn a b) = false.
End Sort.

End JsArray.

(** ** JavaScript [Map] with string keys *)

Module JsMap.

Definition Map (V : Type) : Type := list (string * V).

Section Ops.
Context {V : Type}.

Fixpoint get (k : string) (m : Map V) : option V :=
  match m with
  | [] => None
  | (k', v) :: m' => if String.eqb k k' then Some v else get k m'
  end.

(** [set] keeps the place of a key that is already there. *)
Fixpoint set (k : string) (v : V) (m : Map V) : Map V :=
  match m with
  | [] => [(k, v)]
  | (k', v') :: m' =>
      if String.eqb k k' then (k', v) :: m' else (k', v') :: set k v m'
  end.

Fixpoint delete (k : string) (m : Map V) : Map V :=
  match m with
  | [] => []
  | (k', v') :: m' =>
      if String.eqb k k' then m' else (k', v') :: delete k m'
  end.

Definition values (m : Map V) : list V := map snd m.
Definition size (m : Map V) : nat := List.length m.
End Ops.

End JsMap.

(** ** Data model *)

Import JsNumber.

(** [NodeGroup]: the descriptor of a node in the configuration. *)
Module NodeGroup.
Record t : Type := new {
  name : string;
  host : string;
  port : Z;
  password : string;
  secure : option bool;
  region : option (list string)
}.
End NodeGroup.

(** [ConnectionOptions]: the request for a player. *)
Module ConnectionOptions.
Record t : Type := new {
  guildId : string;
  voiceChannel : string;
  textChannel : string;
  deaf : bool;
  mute : bool;
  region : option string
}.
End ConnectionOptions.

(** [ResolveOptions] *)
Module ResolveOptions.
Record t : Type := new {
  query : string;
  source : option string;
  requester : option string
}.
End ResolveOptions.

(** Modelled from the spec: the class [Node] (./Node/Node) is not among
    the sources.  A node handle wraps its descriptor and exposes a
    connectivity flag, a region list, a load-statistics snapshot (cpu:
    systemLoad, cores) and a scalar penalty score.  A handle is created
    disconnected, without statistics, and its [connect] and [disconnect]
    run their handshake asynchronously; the calls are recorded. *)
Module Node.
Record cpu : Type := Cpu {
  systemLoad : number;
  cores : number
}.

Record t : Type := Build {
  name : string;
  isConnected : bool;
  regions : option (list string);
  stats_cpu : option cpu;
  penalties : number
}.

Definition new (options : NodeGroup.t) : t :=
  {| name := NodeGroup.name options;
     isConnected := false;
     regions := NodeGroup.region options;
     stats_cpu := None;
     penalties := zero |}.
End Node.

(** The payload [d] of a gateway packet. *)
Module PacketData.
Record t : Type := new {
  guild_id : string;
  user_id : option string;
  payload : string
}.
End PacketData.

(** A gateway packet; [t] is the kind and [d] the payload, both absent
    in packets that are not dispatches. *)
Module Packet.
Record packet : Type := new {
  t : option string;
  d : option PacketData.t
}.
End Packet.

(** Modelled from the spec: the class [Connection] is not among the
    sources.  It is the sub-entity of a player that receives the
    server and state updates; it is represented by the updates it has
    received, the latest first. *)
Module Connection.
Inductive update : Type :=
| ServersUpdate (data : PacketData.t)
| StateUpdate (data : PacketData.t).

Definition t : Type := list update.

Definition setServersUpdate (data : PacketData.t) (c : t) : t :=
  ServersUpdate data :: c.
Definition setStateUpdate (data : PacketData.t) (c : t) : t :=
  StateUpdate data :: c.
End Connection.

(** Modelled from the spec: the class [Player] (./Player/Player) is not
    among the sources.  A player holds its session key, the node it is
    bound to, the channel ids, the deaf and mute flags, the optional
    region and a [Connection].  Its [connect] and [destroy] operations
    are recorded as calls. *)
Module Player.
Record t : Type := Build {
  guildId : string;
  node : Node.t;
  voiceChannel : string;
  textChannel : string;
  deaf : bool;
  mute : bool;
  region : option string;
  connection : Connection.t
}.

Definition new (node : Node.t) (options : ConnectionOptions.t) : t :=
  {| guildId := ConnectionOptions.guildId options;
     node := node;
     voiceChannel := ConnectionOptions.voiceChannel options;
     textChannel := ConnectionOptions.textChannel options;
     deaf := ConnectionOptions.deaf options;
     mute := ConnectionOptions.mute options;
     region := ConnectionOptions.region options;
     connection := [] |}.

Definition with_connection (c : Connection.t) (p : t) : t :=
  {| guildId := guildId p; node := node p;
     voiceChannel := voiceChannel p; textChannel := textChannel p;
     deaf := deaf p; mute := mute p; region := region p;
     connection := c |}.
End Player.

(** The address of a [Player] object. *)
Definition PlayerRef : Type := nat.

(** A plugin is known by its name; its [load] hook is recorded. *)
Definition Plugin : Type := string.

(** The function that sends a packet to the gateway: one of the three
    adapters that [init] builds, or a function of the caller. *)
Inductive SendFn : Type :=
| SendDiscordJs
| SendEris
| SendOceanic
| SendCustom (id : nat).

(** [PoruOptions]; the settings that only the nodes and the players
    read (resuming, reconnection, filters) are left out. *)
Module PoruOptions.
Record t : Type := new {
  plugins : option (list Plugin);
  customPlayer : option (Node.t -> ConnectionOptions.t -> Player.t);
  library : option string;
  defaultPlatform : option string;
  send : option SendFn
}.

Definition with_library (l : option string) (o : t) : t :=
  {| plugins := plugins o; customPlayer := customPlayer o;
     library := l; defaultPlatform := defaultPlatform o;
     send := send o |}.
End PoruOptions.

(** The host client: [client.user] is absent until the client is
    ready. *)
Module Client.
Record t : Type := new {
  user_id : option string
}.
End Client.

(** A request to the REST accessor of a node. *)
Inductive RestRequest : Type :=
| RestGet (node : string) (path : string)
| RestPost (node : string) (path : string) (body : list string).

(** Modelled from the spec: the class [Response] (./guild/Response) and
    the REST accessor are not among the sources.  A response is
    represented by the request whose reply it wraps and by the
    requester it echoes. *)
Module Response.
Record t : Type := new {
  request : RestRequest;
  requester : option string
}.
End Response.

(** The calls made on the collaborators, the latest first. *)
Inductive Call : Type :=
| NodeConnect (name : string)
| NodeDisconnect (name : string)
| PluginLoad (plugin : Plugin)
| ClientOn (event : string)
| PlayerConnect (player : PlayerRef) (options : ConnectionOptions.t)
| PlayerDestroy (player : PlayerRef)
| Rest (request : RestRequest).

(** What a method throws. *)
Inductive Exception : Type :=
| Error (message : string)
| TypeError (message : string).

Definition NotActivated : Exception :=
  Error "You have to init poru in your ready event".
Definition NodeRegistryEmpty : Exception :=
  Error "No nodes available currently".
Definition NodeNotFound : Exception :=
  Error "The node identifier you provided is not found".
Definition NoNodesAvailable : Exception :=
  Error "[Poru Error] No nodes are available".
Definition NoNodesAvailableResolve : Exception :=
  Error "No nodes are available.".
Definition MissingSendFunction : Exception :=
  Error "Send function is required in Poru Options".
Definition UndefinedProperty (property : string) : Exception :=
  TypeError ("Cannot read properties of undefined (reading '" ++ property ++ "')").
Definition NullProperty (property : string) : Exception :=
  TypeError ("Cannot read properties of null (reading '" ++ property ++ "')").

(** ** The instance *)

Module Poru.
Record t : Type := Build {
  _nodes : list NodeGroup.t;
  options : PoruOptions.t;
  nodes : JsMap.Map Node.t;
  players : JsMap.Map PlayerRef;
  userId : option string;
  version : string;
  isActivated : bool;
  send : option SendFn;
  heap : list Player.t;
  calls : list Call
}.

Definition set_options (o : PoruOptions.t) (p : t) : t :=
  Build (_nodes p) o (nodes p) (players p) (userId p) (version p)
    (isActivated p) (send p) (heap p) (calls p).
Definition set_nodes (m : JsMap.Map Node.t) (p : t) : t :=
  Build (_nodes p) (options p) m (players p) (userId p) (version p)
    (isActivated p) (send p) (heap p) (calls p).
Definition set_players (m : JsMap.Map PlayerRef) (p : t) : t :=
  Build (_nodes p) (options p) (nodes p) m (userId p) (version p)
    (isActivated p) (send p) (heap p) (calls p).
Definition set_userId (u : option string) (p : t) : t :=
  Build (_nodes p) (options p) (nodes p) (players p) u (version p)
    (isActivated p) (send p) (heap p) (calls p).
Definition set_isActivated (b : bool) (p : t) : t :=
  Build (_nodes p) (options p) (nodes p) (players p) (userId p)
    (version p) b (send p) (heap p) (calls p).
Definition set_send (f : option SendFn) (p : t) : t :=
  Build (_nodes p) (options p) (nodes p) (players p) (userId p)
    (version p) (isActivated p) f (heap p) (calls p).
Definition set_heap (h : list Player.t) (p : t) : t :=
  Build (_nodes p) (options p) (nodes p) (players p) (userId p)
    (version p) (isActivated p) (send p) h (calls p).
Definition set_calls (c : list Call) (p : t) : t :=
  Build (_nodes p) (options p) (nodes p) (players p) (userId p)
    (version p) (isActivated p) (send p) (heap p) c.
End Poru.

(** ** Computations on the instance *)

Inductive outcome (A : Type) : Type :=
| Return (a : A)
| Throw (e : Exception).
Arguments Return {A} a.
Arguments Throw {A} e.

Definition M (A : Type) : Type := Poru.t -> outcome A * Poru.t.

Definition ret {A} (a : A) : M A := fun this => (Return a, this).
Definition throw {A} (e : Exception) : M A := fun this => (Throw e, this).
Definition bind {A B} (m : M A) (k : A -> M B) : M B :=
  fun this =>
    match m this with
    | (Return a, this') => k a this'
    | (Throw e, this') => (Throw e, this')
    end.
Definition read : M Poru.t := fun this => (Return this, this).
Definition modify (f : Poru.t -> Poru.t) : M unit := fun this => (Return tt, f this).

Notation "x <- m ;; k" := (bind m (fun x => k))
  (at level 61, m at next level, right associativity).
Notation "m ;;; k" := (bind m (fun _ => k))
  (at level 61, right associativity).

(** A call on a collaborator. *)
Definition call (c : Call) : M unit :=
  modify (fun this => Poru.set_calls (c :: Poru.calls this) this).

(** [Array.prototype.forEach] *)
Fixpoint forEach {A} (l : list A) (f : A -> M unit) : M unit :=
  match l with
  | [] => ret tt
  | x :: l' => f x ;;; forEach l' f
  end.

(** The value a computation leaves and the instance after it. *)
Definition result {A} (m : M A) (this : Poru.t) : outcome A := fst (m this).
Definition after {A} (m : M A) (this : Poru.t) : Poru.t := snd (m this).

(** The heap of players. *)
Definition heap_get (r : PlayerRef) (h : list Player.t) : option Player.t :=
  nth_error h r.

Fixpoint heap_update (r : PlayerRef) (f : Player.t -> Player.t)
    (h : list Player.t) : list Player.t :=
  match h, r with
  | [], _ => []
  | p :: h', O => f p :: h'
  | p :: h', S r' => p :: heap_update r' f h'
  end.

(** [player.connection.<setter>(data)] *)
Definition update_connection (player : PlayerRef)
    (setter : Connection.t -> Connection.t) : M unit :=
  modify (fun this =>
    Poru.set_heap
      (heap_update player
         (fun p => Player.with_connection (setter (Player.connection p)) p)
         (Poru.heap this))
      this).

(** [a !== b] where [a] is a string or [undefined] and [b] a string or
    [null]: [undefined] and [null] are different values. *)
Definition strict_neq (a b : option string) : bool :=
  match a, b with
  | Some x, Some y => negb (String.eqb x y)
  | _, _ => true
  end.

(** [!s] for an optional string. *)
Definition falsy (s : option string) : bool :=
  match s with
  | Some x => negb (JsString.truthy x)
  | None => true
  end.

(** ** The class [Poru] *)

Definition constructor (nodes : list NodeGroup.t) (options : PoruOptions.t)
    (config_version : string) : Poru.t :=
  {| Poru._nodes := nodes;
     Poru.options := options;
     Poru.nodes := [];
     Poru.players := [];
     Poru.userId := None;
     Poru.version := config_version;
     Poru.isActivated := false;
     Poru.send := None;
     Poru.heap := [];
     Poru.calls := [] |}.

Definition addNode (options : NodeGroup.t) : M Node.t :=
  let node := Node.new options in
  modify (fun this =>
    Poru.set_nodes (JsMap.set (NodeGroup.name options) node (Poru.nodes this)) this) ;;;
  call (NodeConnect (Node.name node)) ;;;
  ret node.

Definition removeNode (identifier : string) : M unit :=
  this <- read ;;
  match JsMap.get identifier (Poru.nodes this) with
  | None => ret tt
  | Some node =>
      call (NodeDisconnect (Node.name node)) ;;;
      modify (fun this => Poru.set_nodes (JsMap.delete identifier (Poru.nodes this)) this)
  end.

(** [a.stats.cpu ? (a.stats.cpu.systemLoad / a.stats.cpu.cores) * 100 : 0] *)
Definition cpuLoad (a : Node.t) : number :=
  match Node.stats_cpu a with
  | Some c => mul (div (Node.systemLoad c) (Node.cores c)) hundred
  | None => zero
  end.

Definition byCpuLoad (a b : Node.t) : number := sub (cpuLoad a) (cpuLoad b).

(** [node.isConnected && node.regions?.includes(region?.toLowerCase())] *)
Definition inRegion (region : string) (node : Node.t) : bool :=
  Node.isConnected node &&
  match Node.regions node with
  | Some l => JsString.includes l (JsString.toLowerCase region)
  | None => false
  end.

Definition getNodeByRegion (region : string) (this : Poru.t) : list Node.t :=
  JsArray.sort byCpuLoad
    (filter (inRegion region) (JsMap.values (Poru.nodes this))).

Definition byPenalties (a b : Node.t) : number :=
  sub (Node.penalties a) (Node.penalties b).

Definition leastUsedNodes (this : Poru.t) : list Node.t :=
  JsArray.sort byPenalties
    (filter Node.isConnected (JsMap.values (Poru.nodes this))).

(** What [getNode] returns: a node, or the array [leastUsedNodes]. *)
Inductive NodeOrNodes : Type :=
| OneNode (node : Node.t)
| NodeArray (nodes : list Node.t).

(** [identifier] is [None] when the argument is left out; its default
    is ["auto"]. *)
Definition getNode (identifier : option string) : M NodeOrNodes :=
  let identifier :=
    match identifier with Some i => i | None => "auto" end in
  this <- read ;;
  if (JsMap.size (Poru.nodes this) =? 0)%nat then throw NodeRegistryEmpty
  else if String.eqb identifier "auto" then ret (NodeArray (leastUsedNodes this))
  else
    match JsMap.get identifier (Poru.nodes this) with
    | None => throw NodeNotFound
    | Some node =>
        (if negb (Node.isConnected node)
         then call (NodeConnect (Node.name node)) else ret tt) ;;;
        ret (OneNode node)
    end.

(** What [player.connect(options)] does is the code of the player,
    which holds the instance and may read and change it, or throw. *)
Definition ConnectFn : Type := PlayerRef -> ConnectionOptions.t -> M unit.

(** The [connect] of the players of this development: the call is
    recorded. *)
Definition recordConnect : ConnectFn :=
  fun player options => call (PlayerConnect player options).

(** [createPlayer], for players whose [connect] is [connect]. *)
Definition createPlayerWith (connect : ConnectFn)
    (node : Node.t) (options : ConnectionOptions.t) : M PlayerRef :=
  this <- read ;;
  let object :=
    match PoruOptions.customPlayer (Poru.options this) with
    | Some custom => custom node options
    | None => Player.new node options
    end in
  let player : PlayerRef := List.length (Poru.heap this) in
  modify (Poru.set_heap (Poru.heap this ++ [object])) ;;;
  modify (fun this =>
    Poru.set_players
      (JsMap.set (ConnectionOptions.guildId options) player (Poru.players this))
      this) ;;;
  connect player options ;;;
  ret player.

Definition createPlayer (node : Node.t) (options : ConnectionOptions.t)
    : M PlayerRef :=
  createPlayerWith recordConnect node options.

(** The node of [createConnection]: by region when [options.region] is
    set, the least used one otherwise.  [leastUsed] is
    [this.nodes.get(this.leastUsedNodes[0].name)]. *)
Definition selectNode (options : ConnectionOptions.t) : M (option Node.t) :=
  this <- read ;;
  let leastUsed : M (option Node.t) :=
    match nth_error (leastUsedNodes this) 0 with
    | Some n => ret (JsMap.get (Node.name n) (Poru.nodes this))
    | None => throw (UndefinedProperty "name")
    end in
  match ConnectionOptions.region options with
  | Some r =>
      if JsString.truthy r then
        match nth_error (getNodeByRegion r this) 0 with
        | None => throw (UndefinedProperty "name")
        | Some region =>
            if JsString.truthy (Node.name region)
            then ret (JsMap.get (Node.name region) (Poru.nodes this))
            else leastUsed
        end
      else leastUsed
  | None => leastUsed
  end.

(** [createConnection], for players whose [connect] is [connect]. *)
Definition createConnectionWith (connect : ConnectFn)
    (options : ConnectionOptions.t) : M PlayerRef :=
  this <- read ;;
  if negb (Poru.isActivated this) then throw NotActivated
  else
    match JsMap.get (ConnectionOptions.guildId options) (Poru.players this) with
    | Some player => ret player
    | None =>
        if (List.length (leastUsedNodes this) =? 0)%nat
        then throw NoNodesAvailable
        else
          node <- selectNode options ;;
          match node with
          | None => throw NoNodesAvailable
          | Some node => createPlayerWith connect node options
          end
    end.

Definition createConnection (options : ConnectionOptions.t) : M PlayerRef :=
  createConnectionWith recordConnect options.

Definition removeConnection (guildId : string) : M unit :=
  this <- read ;;
  match JsMap.get guildId (Poru.players this) with
  | Some player => call (PlayerDestroy player)
  | None => ret tt
  end.

Definition get (guildId : string) (this : Poru.t) : option PlayerRef :=
  JsMap.get guildId (Poru.players this).

(** The adapter of [init]: the function [send] and the subscription to
    the packets of the host library.  A library that is none of the four
    leaves [send] as it is. *)
Definition selectAdapter : M unit :=
  this <- read ;;
  match PoruOptions.library (Poru.options this) with
  | None => ret tt
  | Some library =>
      if String.eqb library "discord.js" then
        modify (Poru.set_send (Some SendDiscordJs)) ;;;
        call (ClientOn "raw")
      else if String.eqb library "eris" then
        modify (Poru.set_send (Some SendEris)) ;;;
        call (ClientOn "rawWS")
      else if String.eqb library "oceanic" then
        modify (Poru.set_send (Some SendOceanic)) ;;;
        call (ClientOn "packet")
      else if String.eqb library "other" then
        match Poru.send this with
        | None => throw MissingSendFunction
        | Some _ =>
            modify (Poru.set_send (PoruOptions.send (Poru.options this)))
        end
      else ret tt
  end.

(** [(node) => this.addNode(node)] *)
Definition registerNode (node : NodeGroup.t) : M unit :=
  addNode node ;;; ret tt.

(** [(plugin) => { plugin.load(this) }] *)
Definition loadPlugin (plugin : Plugin) : M unit :=
  call (PluginLoad plugin).

Definition init (client : Client.t) : M unit :=
  this <- read ;;
  if Poru.isActivated this then ret tt
  else
    id <- match Client.user_id client with
          | Some id => ret id
          | None => throw (NullProperty "id")
          end ;;
    modify (Poru.set_userId (Some id)) ;;;
    forEach (Poru._nodes this) registerNode ;;;
    modify (Poru.set_isActivated true) ;;;
    match PoruOptions.plugins (Poru.options this) with
    | Some plugins => forEach plugins loadPlugin
    | None => ret tt
    end ;;;
    (if falsy (PoruOptions.library (Poru.options this))
     then modify (fun this =>
            Poru.set_options
              (PoruOptions.with_library (Some "discord.js") (Poru.options this))
              this)
     else ret tt) ;;;
    selectAdapter.

Definition voiceKinds : list string :=
  ["VOICE_STATE_UPDATE"; "VOICE_SERVER_UPDATE"].

(** [["VOICE_STATE_UPDATE", "VOICE_SERVER_UPDATE"].includes(packet.t)] *)
Definition isVoiceKind (t : option string) : bool :=
  match t with
  | Some kind => JsString.includes voiceKinds kind
  | None => false
  end.

(** [packet.t === kind] *)
Definition isKind (kind : string) (t : option string) : bool :=
  match t with
  | Some k => String.eqb k kind
  | None => false
  end.

Definition packetUpdate (packet : Packet.packet) : M unit :=
  if negb (isVoiceKind (Packet.t packet)) then ret tt
  else
    d <- match Packet.d packet with
         | Some d => ret d
         | None => throw (NullProperty "guild_id")
         end ;;
    this <- read ;;
    match JsMap.get (PacketData.guild_id d) (Poru.players this) with
    | None => ret tt
    | Some player =>
        (if isKind "VOICE_SERVER_UPDATE" (Packet.t packet)
         then update_connection player (Connection.setServersUpdate d)
         else ret tt) ;;;
        (if isKind "VOICE_STATE_UPDATE" (Packet.t packet)
         then
           if strict_neq (PacketData.user_id d) (Poru.userId this) then ret tt
           else update_connection player (Connection.setStateUpdate d)
         else ret tt)
    end.

(** [node.rest.get(path)] *)
Definition restGet (node : Node.t) (path : string) : M RestRequest :=
  let request := RestGet (Node.name node) path in
  call (Rest request) ;;; ret request.

(** [node.rest.post(path, body)] *)
Definition restPost (node : Node.t) (path : string) (body : list string)
    : M RestRequest :=
  let request := RestPost (Node.name node) path body in
  call (Rest request) ;;; ret request.

(** [source || "ytsearch"] *)
Definition sourceOr (source : option string) : string :=
  match source with
  | Some s => if JsString.truthy s then s else "ytsearch"
  | None => "ytsearch"
  end.

Definition loadTracks : string := "/v3/loadtracks?identifier=".

Definition resolve (o : ResolveOptions.t) (node : option Node.t)
    : M Response.t :=
  this <- read ;;
  if negb (Poru.isActivated this) then throw NotActivated
  else
    let node :=
      match node with
      | Some n => Some n
      | None => nth_error (leastUsedNodes this) 0
      end in
    match node with
    | None => throw NoNodesAvailableResolve
    | Some node =>
        if JsString.isUrl (ResolveOptions.query o) then
          response <- restGet node
            (loadTracks ++ JsString.encodeURIComponent (ResolveOptions.query o)) ;;
          ret (Response.new response (ResolveOptions.requester o))
        else
          let track :=
            sourceOr (ResolveOptions.source o) ++ ":" ++ ResolveOptions.query o in
          response <- restGet node
            (loadTracks ++ JsString.encodeURIComponent track) ;;
          ret (Response.new response (ResolveOptions.requester o))
    end.

Definition decodeTrack (track : string) (node : option Node.t)
    : M RestRequest :=
  this <- read ;;
  let node :=
    match node with
    | Some n => Some n
    | None => nth_error (leastUsedNodes this) 0
    end in
  match node with
  | None => throw (UndefinedProperty "rest")
  | Some node =>
      restGet node
        ("/v3/decodetrack?encodedTrack=" ++ JsString.encodeURIComponent track)
  end.

Definition decodeTracks (tracks : list string) (node : Node.t)
    : M RestRequest :=
  restPost node "/v3/decodetracks" tracks.

Definition getLavalinkInfo (name : string) : M RestRequest :=
  this <- read ;;
  match JsMap.get name (Poru.nodes this) with
  | Some node => restGet node "/v3/info"
  | None => throw (UndefinedProperty "rest")
  end.

Definition getLavalinkStatus (name : string) : M RestRequest :=
  this <- read ;;
  match JsMap.get name (Poru.nodes this) with
  | Some node => restGet node "/v3/stats"
  | None => throw (UndefinedProperty "rest")
  end.

(** ** Words of the specification *)

(** A region list contains [region] case-insensitively. *)
Definition containsIgnoringCase (l : list string) (region : string) : bool :=
  existsb
    (fun r => String.eqb (JsString.toLowerCase r) (JsString.toLowerCase region))
    l.

(** The identifier the specification gives to a resolve request: the
    query itself when it begins with [http://] or [https://], and
    [source:query] otherwise, where a source that is unset or empty
    stands for [ytsearch]. *)
Definition specIdentifier (query : string) (source : option string) : string :=
  if String.prefix "http://" query || String.prefix "https://" query
  then query
  else
    match source with
    | None | Some EmptyString => "ytsearch" ++ ":" ++ query
    | Some s => s ++ ":" ++ query
    end.

(** ** Sample instances *)

Module Sample.

(** [0.5] *)
Definition half : number := Eval vm_compute in div (of_Z 1) (of_Z 2).

Definition usNode : Node.t :=
  {| Node.name := "us-1";
     Node.isConnected := true;
     Node.regions := Some ["us"];
     Node.stats_cpu := Some (Node.Cpu half (of_Z 4));
     Node.penalties := of_Z 3 |}.

(** A node whose region is written in upper case. *)
Definition euNode : Node.t :=
  {| Node.name := "eu-1";
     Node.isConnected := true;
     Node.regions := Some ["EU"];
     Node.stats_cpu := None;
     Node.penalties := of_Z 1 |}.

Definition usGroup : NodeGroup.t :=
  NodeGroup.new "us-1" "localhost" 2333 "youshallnotpass" None (Some ["us"]).

Definition euGroup : NodeGroup.t :=
  NodeGroup.new "eu-1" "localhost" 2334 "youshallnotpass" None (Some ["EU"]).

Definition discordOptions : PoruOptions.t :=
  PoruOptions.new None None (Some "discord.js") None None.

(** Library ["other"] with a send function of the caller. *)
Definition otherOptions : PoruOptions.t :=
  PoruOptions.new None None (Some "other") None (Some (SendCustom 0)).

(** Library ["other"] without a send function. *)
Definition otherOptionsNoSend : PoruOptions.t :=
  PoruOptions.new None None (Some "other") None None.

Definition client : Client.t := Client.new (Some "1000").

(** An activated instance with the two nodes connected. *)
Definition activated : Poru.t :=
  {| Poru._nodes := [usGroup; euGroup];
     Poru.options := discordOptions;
     Poru.nodes := [("us-1", usNode); ("eu-1", euNode)];
     Poru.players := [];
     Poru.userId := Some "1000";
     Poru.version := "4.0.0";
     Poru.isActivated := true;
     Poru.send := Some SendDiscordJs;
     Poru.heap := [];
     Poru.calls := [] |}.

(** The same with the node [us-1] alone. *)
Definition activatedUs : Poru.t :=
  Poru.set_nodes [("us-1", usNode)] activated.

Definition connect (region : option string) : ConnectionOptions.t :=
  ConnectionOptions.new "guild-1" "voice-1" "text-1" true false region.

(** The instance [activated] after a player was created for
    [guild-1]. *)
Definition withPlayer : Poru.t := after (createConnection (connect None)) activated.

Definition serverUpdate : PacketData.t :=
  PacketData.new "guild-1" None "endpoint".

Definition stateUpdate (user : string) : PacketData.t :=
  PacketData.new "guild-1" (Some user) "session".

(** A fresh instance for the library ["other"], with and without a
    send function in the options. *)
Definition freshOther : Poru.t := constructor [usGroup] otherOptions "4.0.0".
Definition freshOtherNoSend : Poru.t :=
  constructor [usGroup] otherOptionsNoSend "4.0.0".

(** [activated] before its activation. *)
Definition notActivated : Poru.t := Poru.set_isActivated false activated.

End Sample.

(** ** Running a computation symbolically *)

Ltac run :=
  cbv beta iota zeta
    delta [bind read ret throw modify call result after] in *.


(** ** Invariants of the registries *)

(** The node registry holds one handle for a name, under the name that
    the handle bears. *)
Definition nodes_ok (this : Poru.t) : Prop :=
  NoDup (map fst (Poru.nodes this)) /\
  forall k n, In (k, n) (Poru.nodes this) -> Node.name n = k.

(** The player registry holds one player for a session key, holds no
    player twice, and every player it holds is in the heap. *)
Definition players_ok (this : Poru.t) : Prop :=
  NoDup (map fst (Poru.players this)) /\
  NoDup (map snd (Poru.players this)) /\
  forall k r, In (k, r) (Poru.players this) ->
              (r < List.length (Poru.heap this))%nat.

(** The connected nodes, in the order of the registry. *)
Definition connectedNodes (this : Poru.t) : list Node.t :=
  filter Node.isConnected (JsMap.values (Poru.nodes this)).

(** A character that may stand in a query string without being taken
    for a separator: an unescaped one, or the [%] of an escape. *)
Definition urlSafe (c : ascii) : bool :=
  JsString.unescaped c || Ascii.eqb c "%".

(** The adapters that [init] builds itself: the library, the function
    [send] and the event of the client it subscribes to. *)
Definition adapters : list (string * SendFn * string) :=
  [("discord.js", SendDiscordJs, "raw");
   ("eris", SendEris, "rawWS");
   ("oceanic", SendOceanic, "packet")].

(** The registry after the descriptors [l] were added one by one. *)
Definition registerAll (l : list NodeGroup.t) (m : JsMap.Map Node.t)
    : JsMap.Map Node.t :=
  fold_left (fun m g => JsMap.set (NodeGroup.name g) (Node.new g) m) l m.

(** The calls of [connect] for the descriptors [l], the latest first. *)
Definition connectCalls (l : list NodeGroup.t) : list Call :=
  rev (map (fun g => NodeConnect (NodeGroup.name g)) l).

(** ** More sample instances *)

Module Scenario.

(** An activated instance whose only node has not connected yet. *)
Definition idle : Poru.t :=
  Poru.set_nodes [("us-1", Node.new Sample.usGroup)] Sample.activated.

(** Two connected nodes of the same penalty, registered [a] first. *)
Definition nodeA : Node.t :=
  Node.Build "a" true (Some ["us"]) None (of_Z 2).
Definition nodeB : Node.t :=
  Node.Build "b" true (Some ["us"]) None (of_Z 2).
Definition level : Poru.t :=
  Poru.set_nodes [("a", nodeA); ("b", nodeB)] Sample.activated.

(** Two connected nodes registered in ascending order of penalty. *)
Definition ascending : Poru.t :=
  Poru.set_nodes [("eu-1", Sample.euNode); ("us-1", Sample.usNode)]
    Sample.activated.

Definition options (library : option string) (send : option SendFn)
    : PoruOptions.t :=
  PoruOptions.new (Some ["plugin-1"]) None library None send.

Definition fresh (library : option string) (send : option SendFn) : Poru.t :=
  constructor [Sample.usGroup; Sample.euGroup] (options library send) "4.0.0".

(** A client that is not ready: [client.user] is [null]. *)
Definition notReady : Client.t := Client.new None.

(** A [connect] that looks its player up in the registry and throws
    when the session key does not read it. *)
Definition connectChecked : ConnectFn :=
  fun player options =>
    this <- read ;;
    match get (ConnectionOptions.guildId options) this with
    | Some registered =>
        if (registered =? player)%nat then ret tt
        else throw (Error "The player is not registered")
    | None => throw (Error "The player is not registered")
    end.

End Scenario.

(** * Properties *)

(** ** Numbers: the sign of a difference *)

Module JsNumberFacts.

Lemma binary_round_aux_sign s m e l :
  sign_is s (binary_round_aux prec emax s m e l).
Proof.
  unfold binary_round_aux.
  destruct (shr_fexp prec emax m e l) as [mrs' e'].
  destruct (shr_fexp prec emax _ e' loc_Exact) as [mrs'' e''].
  destruct (shr_m mrs''); simpl; auto.
  match goal with |- context [if ?c then _ else _] => destruct c end;
    reflexivity.
Qed.

Lemma binary_round_sign s m e : sign_is s (binary_round prec emax s m e).
Proof.
  unfold binary_round.
  destruct (shl_align m e _) as [mz ez]. apply binary_round_aux_sign.
Qed.

Lemma negative_not_pos x : sign_is true x -> is_pos x = false.
Proof. destruct x; simpl; intros; subst; reflexivity. Qed.

Lemma pos_normalize m e :
  is_pos (binary_normalize prec emax m e false) = true -> (0 < m)%Z.
Proof.
  destruct m as [|p|p]; simpl; intros H; try lia; try discriminate.
  rewrite negative_not_pos in H by apply binary_round_sign. discriminate.
Qed.

Lemma normalize_neg_not_pos m e :
  (m < 0)%Z -> is_pos (binary_normalize prec emax m e false) = false.
Proof.
  destruct m as [|p|p]; try lia. intros _. simpl.
  apply negative_not_pos, binary_round_sign.
Qed.

(** When [x - y] is positive, [y - x] is not. *)
Lemma sub_pos_antisym x y :
  is_pos (sub x y) = true -> is_pos (sub y x) = false.
Proof.
  destruct x as [sx|sx| |sx mx ex], y as [sy|sy| |sy my ey];
    try solve [ cbv [is_pos ltb sub zero SFsub SFltb SFcompare negb];
                repeat match goal with s : bool |- _ => destruct s end;
                congruence ].
  unfold sub, SFsub. rewrite (Z.min_comm ey ex).
  intros H. apply pos_normalize in H.
  apply normalize_neg_not_pos. lia.
Qed.

End JsNumberFacts.

(** ** Arrays: the sort is a permutation and puts neighbours in order *)

Module JsArrayFacts.
Import JsArray.

Section Sort.
Context {A : Type}.
Variable comparefn : A -> A -> number.

Lemma insert_perm x l : Permutation (insert comparefn x l) (x :: l).
Proof.
  induction l as [|y l IH]; simpl.
  - apply Permutation_refl.
  - destruct (is_pos (comparefn y x)).
    + apply Permutation_refl.
    + eapply Permutation_trans; [apply perm_skip, IH | apply perm_swap].
Qed.

Lemma fold_insert_perm l :
  forall acc,
    Permutation (fold_left (fun sorted x => insert comparefn x sorted) l acc)
      (acc ++ l).
Proof.
  induction l as [|x l IH]; intros acc; simpl.
  - rewrite app_nil_r. apply Permutation_refl.
  - eapply Permutation_trans; [apply IH|].
    eapply Permutation_trans;
      [apply Permutation_app_tail, insert_perm|].
    simpl. apply Permutation_middle.
Qed.

Lemma sort_perm l : Permutation (sort comparefn l) l.
Proof. apply (fold_insert_perm l []). Qed.

Lemma sort_In x l : In x (sort comparefn l) <-> In x l.
Proof.
  split; apply Permutation_in;
    [apply sort_perm | apply Permutation_sym, sort_perm].
Qed.

(** The comparator never places each of two elements after the other. *)
Hypothesis antisym :
  forall a b, is_pos (comparefn a b) = true -> is_pos (comparefn b a) = false.

Lemma insert_HdRel a x l :
  in_order comparefn a x -> HdRel (in_order comparefn) a l ->
  HdRel (in_order comparefn) a (insert comparefn x l).
Proof.
  intros Hax Hal. destruct l as [|y l]; simpl.
  - constructor. exact Hax.
  - destruct (is_pos (comparefn y x)); constructor.
    + exact Hax.
    + inversion Hal; assumption.
Qed.

Lemma insert_sorted x l :
  Sorted (in_order comparefn) l ->
  Sorted (in_order comparefn) (insert comparefn x l).
Proof.
  induction 1 as [|y l Hs IH Hhd]; simpl.
  - repeat constructor.
  - destruct (is_pos (comparefn y x)) eqn:E.
    + constructor; [constructor; assumption|].
      constructor. apply antisym, E.
    + constructor; [exact IH|].
      apply insert_HdRel; [exact E | exact Hhd].
Qed.

Lemma fold_insert_sorted l :
  forall acc,
    Sorted (in_order comparefn) acc ->
    Sorted (in_order comparefn)
      (fold_left (fun sorted x => insert comparefn x sorted) l acc).
Proof.
  induction l as [|x l IH]; intros acc Hacc; simpl.
  - exact Hacc.
  - apply IH, insert_sorted, Hacc.
Qed.

Lemma sort_sorted l : Sorted (in_order comparefn) (sort comparefn l).
Proof. apply fold_insert_sorted. constructor. Qed.

End Sort.

Lemma filter_none {A} (f : A -> bool) l :
  (forall x, In x l -> f x = false) -> filter f l = [].
Proof.
  induction l as [|x l IH]; simpl; intros H; [reflexivity|].
  rewrite (H x) by auto. apply IH. intros. apply H. auto.
Qed.

Lemma length_zero {A} (l : list A) :
  (List.length l =? 0)%nat = false <-> l <> [].
Proof. destruct l; simpl; split; congruence. Qed.

End JsArrayFacts.

(** ** Maps: a key reads what was last set *)

Module JsMapFacts.
Import JsMap.

Lemma get_set {V} k (v : V) m : get k (set k v m) = Some v.
Proof.
  induction m as [|[k' v'] m IH]; simpl.
  - rewrite String.eqb_refl. reflexivity.
  - destruct (String.eqb k k') eqn:E; simpl; rewrite E; auto.
Qed.

Lemma get_set_other {V} k k' (v : V) m :
  k <> k' -> get k' (set k v m) = get k' m.
Proof.
  intros Hne. induction m as [|[k0 v0] m IH]; simpl.
  - destruct (String.eqb_spec k' k); congruence.
  - destruct (String.eqb_spec k k0); simpl.
    + subst. destruct (String.eqb_spec k' k0); congruence.
    + rewrite IH. reflexivity.
Qed.

End JsMapFacts.

(** ** Strings: percent-decoding undoes [encodeURIComponent] *)

Module JsStringFacts.
Import JsString.

Lemma unescaped_not_percent c : unescaped c = true -> c <> "%"%char.
Proof. intros H E. subst. discriminate. Qed.

(** One escaped byte decodes to itself. *)
Lemma decode_escape c s :
  percentDecode
    (String "%" (String (hex_digit (nat_of_ascii c / 16))
       (String (hex_digit (nat_of_ascii c mod 16)) s)))
  = match percentDecode s with
    | Some r => Some (String c r)
    | None => None
    end.
Proof.
  cbn [percentDecode].
  assert (Hhi : hex_value (hex_digit (nat_of_ascii c / 16))
                = Some (nat_of_ascii c / 16)%nat)
    by (destruct c as [[] [] [] [] [] [] [] []]; reflexivity).
  assert (Hlo : hex_value (hex_digit (nat_of_ascii c mod 16))
                = Some (nat_of_ascii c mod 16)%nat)
    by (destruct c as [[] [] [] [] [] [] [] []]; reflexivity).
  rewrite Hhi, Hlo.
  assert (Hc : ascii_of_nat
                 (16 * (nat_of_ascii c / 16) + nat_of_ascii c mod 16) = c).
  { rewrite <- Nat.div_mod_eq. apply ascii_nat_embedding. }
  rewrite Hc. reflexivity.
Qed.

Lemma decode_plain c s :
  c <> "%"%char ->
  percentDecode (String c s)
  = match percentDecode s with
    | Some r => Some (String c r)
    | None => None
    end.
Proof.
  intros Hc. cbn [percentDecode].
  destruct c as [[] [] [] [] [] [] [] []]; try reflexivity.
  contradiction Hc. reflexivity.
Qed.

Lemma percentDecode_encodeURIComponent s :
  percentDecode (encodeURIComponent s) = Some s.
Proof.
  induction s as [|c s IH]; [reflexivity|].
  cbn [encodeURIComponent].
  destruct (unescaped c) eqn:E.
  - rewrite decode_plain by (apply unescaped_not_percent, E).
    rewrite IH. reflexivity.
  - rewrite decode_escape, IH. reflexivity.
Qed.

Lemma includes_In l x : includes l x = true <-> In x l.
Proof.
  unfold includes. rewrite existsb_exists. split.
  - intros (y & Hy & E). apply String.eqb_eq in E. subst. exact Hy.
  - intros H. exists x. split; [exact H | apply String.eqb_refl].
Qed.

End JsStringFacts.

(** ** Maps and heaps: what the registries rest on *)

Module RegistryFacts.
Import JsMap.

Lemma get_In {V} k (v : V) m : get k m = Some v -> In (k, v) m.
Proof.
  induction m as [|[k' v'] m IH]; simpl; [discriminate|].
  destruct (String.eqb_spec k k').
  - intros H. inversion H; subst. auto.
  - auto.
Qed.

Lemma get_None {V} k (m : Map V) : get k m = None <-> ~ In k (map fst m).
Proof.
  induction m as [|[k' v'] m IH]; simpl.
  - tauto.
  - destruct (String.eqb_spec k k').
    + subst. split; [discriminate | intros H; exfalso; auto].
    + rewrite IH. split; [intros H [E|E]; congruence || auto | auto].
Qed.

Lemma In_get {V} k (v : V) m :
  NoDup (map fst m) -> In (k, v) m -> get k m = Some v.
Proof.
  induction m as [|[k' v'] m IH]; simpl; [tauto|].
  intros Hnd [E|Hin].
  - inversion E; subst. rewrite String.eqb_refl. reflexivity.
  - inversion Hnd as [|? ? Hnotin Hnd']; subst.
    destruct (String.eqb_spec k k').
    + subst. exfalso. apply Hnotin.
      apply (in_map fst) in Hin. exact Hin.
    + auto.
Qed.

Lemma keys_set {V} k (v : V) m :
  map fst (set k v m)
  = match get k m with
    | Some _ => map fst m
    | None => (map fst m ++ [k])%list
    end.
Proof.
  induction m as [|[k' v'] m IH]; simpl; [reflexivity|].
  destruct (String.eqb_spec k k'); simpl; [reflexivity|].
  rewrite IH. destruct (get k m); reflexivity.
Qed.

Lemma NoDup_keys_set {V} k (v : V) m :
  NoDup (map fst m) -> NoDup (map fst (set k v m)).
Proof.
  intros H. rewrite keys_set. destruct (get k m) eqn:E; [exact H|].
  apply get_None in E.
  apply NoDup_app; [exact H | repeat constructor; simpl; tauto |].
  intros x Hx [<-|[]]. auto.
Qed.

Lemma size_set {V} k (v : V) m :
  size (set k v m)
  = match get k m with
    | Some _ => size m
    | None => S (size m)
    end.
Proof.
  unfold size. rewrite <- !(length_map fst), keys_set.
  destruct (get k m); [reflexivity|].
  rewrite length_app. simpl. lia.
Qed.

Lemma delete_absent {V} k (m : Map V) : get k m = None -> delete k m = m.
Proof.
  induction m as [|[k' v'] m IH]; simpl; [reflexivity|].
  destruct (String.eqb_spec k k'); [discriminate|].
  intros H. rewrite IH by exact H. reflexivity.
Qed.

Lemma delete_set {V} k (v : V) m :
  get k m = None -> delete k (set k v m) = m.
Proof.
  induction m as [|[k' v'] m IH]; simpl.
  - rewrite String.eqb_refl. reflexivity.
  - destruct (String.eqb_spec k k'); [discriminate|]. simpl.
    destruct (String.eqb_spec k k'); [congruence|].
    intros H. rewrite IH by exact H. reflexivity.
Qed.

Lemma keys_delete_incl {V} k (m : Map V) x :
  In x (map fst (delete k m)) -> In x (map fst m).
Proof.
  induction m as [|[k' v'] m IH]; simpl; [tauto|].
  destruct (String.eqb_spec k k'); simpl; tauto.
Qed.

Lemma NoDup_keys_delete {V} k (m : Map V) :
  NoDup (map fst m) -> NoDup (map fst (delete k m)).
Proof.
  induction m as [|[k' v'] m IH]; simpl; [auto|].
  intros H. inversion H as [|? ? Hnotin Hnd]; subst.
  destruct (String.eqb_spec k k'); simpl; [exact Hnd|].
  constructor; [|auto].
  intros Hin. apply Hnotin. eapply keys_delete_incl, Hin.
Qed.

Lemma get_delete {V} k (m : Map V) :
  NoDup (map fst m) -> get k (delete k m) = None.
Proof.
  induction m as [|[k' v'] m IH]; simpl; [reflexivity|].
  intros H. inversion H as [|? ? Hnotin Hnd]; subst.
  destruct (String.eqb_spec k k').
  - subst. apply get_None. exact Hnotin.
  - simpl. destruct (String.eqb_spec k k'); [congruence|auto].
Qed.

Lemma get_delete_other {V} k k' (m : Map V) :
  k <> k' -> get k' (delete k m) = get k' m.
Proof.
  intros Hne. induction m as [|[k0 v0] m IH]; simpl; [reflexivity|].
  destruct (String.eqb_spec k k0); simpl.
  - subst. destruct (String.eqb_spec k' k0); congruence.
  - rewrite IH. reflexivity.
Qed.

Lemma size_delete {V} k (v : V) m :
  get k m = Some v -> S (size (delete k m)) = size m.
Proof.
  unfold size. induction m as [|[k' v'] m IH]; simpl; [discriminate|].
  destruct (String.eqb_spec k k'); simpl; [reflexivity|].
  intros H. rewrite IH by exact H. reflexivity.
Qed.

Lemma values_set_absent {V} k (v : V) m :
  get k m = None -> values (set k v m) = (values m ++ [v])%list.
Proof.
  unfold values. induction m as [|[k' v'] m IH]; simpl; [reflexivity|].
  destruct (String.eqb_spec k k'); [discriminate|]. simpl.
  intros H. rewrite IH by exact H. reflexivity.
Qed.

Lemma In_set {V} k (v : V) m k0 v0 :
  In (k0, v0) (set k v m) -> (k0 = k /\ v0 = v) \/ In (k0, v0) m.
Proof.
  induction m as [|[k' v'] m IH]; simpl.
  - intros [E|[]]. inversion E. auto.
  - destruct (String.eqb_spec k k'); simpl.
    + subst. intros [E|H]; [inversion E; auto | auto].
    + intros [E|H]; [auto | destruct (IH H); auto].
Qed.

Lemma heap_update_length r f h :
  List.length (heap_update r f h) = List.length h.
Proof.
  revert r. induction h as [|p h IH]; intros [|r]; simpl; auto.
Qed.

Lemma heap_update_same r f h :
  heap_get r (heap_update r f h) = option_map f (heap_get r h).
Proof.
  unfold heap_get. revert r.
  induction h as [|p h IH]; intros [|r]; simpl; auto.
Qed.

Lemma heap_update_other r r' f h :
  r <> r' -> heap_get r' (heap_update r f h) = heap_get r' h.
Proof.
  unfold heap_get. revert r r'.
  induction h as [|p h IH]; intros [|r] [|r'] Hne; simpl; auto; congruence.
Qed.

End RegistryFacts.

(** ** Node selection *)

Lemma leastUsedNodes_In this node :
  In node (leastUsedNodes this) <->
  In node (JsMap.values (Poru.nodes this)) /\ Node.isConnected node = true.
Proof.
  unfold leastUsedNodes. rewrite JsArrayFacts.sort_In. apply filter_In.
Qed.

Lemma leastUsedNodes_nonempty this :
  (exists node, In node (JsMap.values (Poru.nodes this))
                /\ Node.isConnected node = true) ->
  leastUsedNodes this <> [].
Proof.
  intros [node H] E. apply leastUsedNodes_In in H. rewrite E in H. exact H.
Qed.

Lemma getNodeByRegion_none this region :
  (forall node, In node (JsMap.values (Poru.nodes this)) ->
                inRegion region node = false) ->
  getNodeByRegion region this = [].
Proof.
  intros H. unfold getNodeByRegion.
  rewrite JsArrayFacts.filter_none by exact H. reflexivity.
Qed.

Lemma inRegion_spec region node :
  inRegion region node = true <->
  Node.isConnected node = true /\
  exists l, Node.regions node = Some l /\ In (JsString.toLowerCase region) l.
Proof.
  unfold inRegion. rewrite andb_true_iff.
  destruct (Node.regions node) as [l|].
  - rewrite JsStringFacts.includes_In. split.
    + intros [H1 H2]. eauto.
    + intros [H1 (l' & E & H2)]. inversion E; subst. auto.
  - split; [intros [_ H]; discriminate | intros [_ (l & E & _)]; discriminate].
Qed.

Lemma selectNode_state options this : snd (selectNode options this) = this.
Proof.
  unfold selectNode. run.
  destruct (ConnectionOptions.region options) as [r|];
    [destruct (JsString.truthy r);
       [destruct (nth_error (getNodeByRegion r this) 0) as [region|];
          [destruct (JsString.truthy (Node.name region))|]|]|];
    try reflexivity;
    destruct (nth_error (leastUsedNodes this) 0); reflexivity.
Qed.

Lemma getNode_empty identifier this :
  Poru.nodes this = [] ->
  getNode identifier this = (Throw NodeRegistryEmpty, this).
Proof. intros H. unfold getNode. run. rewrite H. reflexivity. Qed.

(** C5.  With a node in the registry, [getNode("auto")] returns the
    whole array [leastUsedNodes], not its first element; the
    documentation of the method promises a node, and so does the branch
    for a named node. *)
Theorem getNode_auto_returns_array this :
  Poru.nodes this <> [] ->
  getNode (Some "auto") this = (Return (NodeArray (leastUsedNodes this)), this).
Proof.
  intros H. unfold getNode. run.
  destruct (Poru.nodes this); [congruence|reflexivity].
Qed.

Lemma getNode_auto_returns_array_witness :
  getNode (Some "auto") Sample.activated
  = (Return (NodeArray [Sample.euNode; Sample.usNode]), Sample.activated).
Proof.
  apply (getNode_auto_returns_array Sample.activated). discriminate.
Defined.

(** C6, amended.  [getNodeByRegion(region)] returns exactly the
    connected nodes whose region list has the lower-cased [region] as
    an entry: the entries themselves are compared as they are written.
    The nodes come in ascending order of their cpu load, the load of a
    node minus the load of the next one being never positive, and no
    node comes when none matches. *)
Theorem getNodeByRegion_spec this region :
  let found := getNodeByRegion region this in
  (forall node,
      In node found <->
      In node (JsMap.values (Poru.nodes this)) /\
      Node.isConnected node = true /\
      exists l, Node.regions node = Some l /\
                In (JsString.toLowerCase region) l) /\
  Permutation found
    (filter (inRegion region) (JsMap.values (Poru.nodes this))) /\
  Sorted (fun a b => is_pos (sub (cpuLoad a) (cpuLoad b)) = false) found /\
  ((forall node, In node (JsMap.values (Poru.nodes this)) ->
                 inRegion region node = false) -> found = []).
Proof.
  cbv zeta. unfold getNodeByRegion. split; [|split; [|split]].
  - intros node. rewrite JsArrayFacts.sort_In, filter_In, inRegion_spec.
    reflexivity.
  - apply JsArrayFacts.sort_perm.
  - apply (JsArrayFacts.sort_sorted byCpuLoad).
    intros a b. apply JsNumberFacts.sub_pos_antisym.
  - intros H. rewrite JsArrayFacts.filter_none by exact H. reflexivity.
Qed.

(** C6 as it is stated fails: the connected node [eu-1] has the region
    [EU], which contains [eu] case-insensitively, and is not returned
    for [eu]. *)
Lemma getNodeByRegion_case_sensitive :
  In Sample.euNode (JsMap.values (Poru.nodes Sample.activated)) /\
  Node.isConnected Sample.euNode = true /\
  (exists l, Node.regions Sample.euNode = Some l /\
             containsIgnoringCase l "eu" = true) /\
  getNodeByRegion "eu" Sample.activated = [].
Proof.
  split; [right; left; reflexivity|].
  split; [reflexivity|].
  split; [exists ["EU"]; split; reflexivity | reflexivity].
Qed.

(** ** The player registry *)

(** [createPlayer] allocates the player, registers it, and asks it to
    connect, in this order. *)
Lemma createPlayer_registers node options this player this' :
  createPlayer node options this = (Return player, this') ->
  exists registered,
    get (ConnectionOptions.guildId options) registered = Some player /\
    Poru.calls registered = Poru.calls this /\
    Poru.isActivated registered = Poru.isActivated this /\
    heap_get player (Poru.heap registered) <> None /\
    this' = after (call (PlayerConnect player options)) registered.
Proof.
  unfold createPlayer, createPlayerWith, recordConnect. run.
  intros H. inversion H; subst; clear H.
  match goal with
  | |- exists r, _ /\ _ /\ _ /\ _ /\ Poru.set_calls _ ?s = _ => exists s
  end.
  split; [|split; [|split; [|split]]].
  - unfold get. cbn. apply JsMapFacts.get_set.
  - reflexivity.
  - reflexivity.
  - cbn. unfold heap_get. rewrite nth_error_app2 by lia.
    rewrite Nat.sub_diag. discriminate.
  - reflexivity.
Qed.

Lemma createConnection_returns options this player this' :
  createConnection options this = (Return player, this') ->
  Poru.isActivated this' = true /\
  get (ConnectionOptions.guildId options) this' = Some player.
Proof.
  unfold createConnection, createConnectionWith. fold createPlayer. run.
  destruct (Poru.isActivated this) eqn:Hact; cbn [negb]; [|discriminate].
  destruct (JsMap.get _ (Poru.players this)) as [p|] eqn:Hget.
  - intros H. inversion H; subst. auto.
  - destruct (List.length (leastUsedNodes this) =? 0)%nat; [discriminate|].
    pose proof (selectNode_state options this) as Hst.
    destruct (selectNode options this) as [[[node|]|e] this1];
      cbn in Hst; subst this1; try discriminate.
    intros H. apply createPlayer_registers in H.
    destruct H as (registered & Hreg & _ & Hact' & _ & ->).
    split; [cbn; congruence | exact Hreg].
Qed.

(** C1.  On an activated instance without a player for the session
    key, with a connected node but none for the region asked for,
    [createConnection] does not fall back to the least used node: it
    reads [name] of the first element of an empty array and throws a
    [TypeError].  The fallback that the expression
    [region.name || this.leastUsedNodes[0].name] attempts is never
    reached. *)
Theorem createConnection_region_miss this options r :
  Poru.isActivated this = true ->
  get (ConnectionOptions.guildId options) this = None ->
  (exists node, In node (JsMap.values (Poru.nodes this))
                /\ Node.isConnected node = true) ->
  ConnectionOptions.region options = Some r ->
  JsString.truthy r = true ->
  (forall node, In node (JsMap.values (Poru.nodes this)) ->
                inRegion r node = false) ->
  createConnection options this = (Throw (UndefinedProperty "name"), this).
Proof.
  intros Hact Hnone Hconn Hregion Htruthy Hmiss.
  apply leastUsedNodes_nonempty, JsArrayFacts.length_zero in Hconn.
  unfold createConnection, createConnectionWith, selectNode, get in *.
  fold createPlayer in *. run.
  rewrite Hact, Hnone, Hconn, Hregion, Htruthy. cbn.
  rewrite (getNodeByRegion_none _ _ Hmiss). reflexivity.
Qed.

Lemma createConnection_region_miss_witness :
  createConnection (Sample.connect (Some "eu")) Sample.activatedUs
  = (Throw (TypeError "Cannot read properties of undefined (reading 'name')"),
     Sample.activatedUs).
Proof.
  apply (createConnection_region_miss Sample.activatedUs
           (Sample.connect (Some "eu")) "eu").
  - reflexivity.
  - reflexivity.
  - exists Sample.usNode. split; [left|]; reflexivity.
  - reflexivity.
  - reflexivity.
  - intros node [H|[]]. subst. reflexivity.
Defined.

(** A player that [createConnection] returns has its object in the
    heap: it was created by the call, or it was registered in a sound
    registry. *)
Lemma createConnection_returns_object options this player this' :
  createConnection options this = (Return player, this') ->
  (get (ConnectionOptions.guildId options) this = None \/ players_ok this) ->
  heap_get player (Poru.heap this') <> None.
Proof.
  unfold createConnection, createConnectionWith, get. fold createPlayer. run.
  destruct (Poru.isActivated this); cbn [negb]; [|discriminate].
  destruct (JsMap.get _ (Poru.players this)) as [p|] eqn:Hget.
  - intros H [Hnone|(_ & _ & Hvalid)]; [discriminate|].
    inversion H; subst.
    apply RegistryFacts.get_In, Hvalid in Hget.
    unfold heap_get. apply nth_error_Some. exact Hget.
  - destruct (List.length (leastUsedNodes this) =? 0)%nat; [discriminate|].
    pose proof (selectNode_state options this) as Hst.
    destruct (selectNode options this) as [[[node|]|e] this1];
      cbn in Hst; subst this1; try discriminate.
    intros H _. apply createPlayer_registers in H.
    destruct H as (registered & _ & _ & _ & Hobject & ->). exact Hobject.
Qed.

(** C7.  On an activated instance, when [createConnection] has returned
    a player for a session key, this player is the one that the
    registry holds for the session key, its object is in the heap (it
    was created by the call, or the registry was sound), and a second
    call with the same session key returns the same player and leaves
    the instance as it is: no player is constructed. *)
Theorem createConnection_idempotent this options options' player this' :
  Poru.isActivated this = true ->
  ConnectionOptions.guildId options' = ConnectionOptions.guildId options ->
  createConnection options this = (Return player, this') ->
  get (ConnectionOptions.guildId options) this' = Some player /\
  ((get (ConnectionOptions.guildId options) this = None \/ players_ok this) ->
   heap_get player (Poru.heap this') <> None) /\
  createConnection options' this' = (Return player, this').
Proof.
  intros _ Hkey H.
  pose proof (createConnection_returns_object _ _ _ _ H) as Hobject.
  apply createConnection_returns in H. destruct H as [Hact Hget].
  split; [exact Hget|]. split; [exact Hobject|].
  unfold createConnection, createConnectionWith, get in *. run.
  rewrite Hact, Hkey, Hget. reflexivity.
Qed.

Lemma createConnection_idempotent_witness :
  get "guild-1" Sample.withPlayer = Some 0 /\
  heap_get 0 (Poru.heap Sample.withPlayer) <> None /\
  createConnection (Sample.connect (Some "us")) Sample.withPlayer
  = (Return 0, Sample.withPlayer).
Proof.
  destruct (createConnection_idempotent Sample.activated (Sample.connect None)
              (Sample.connect (Some "us")) 0 Sample.withPlayer
              eq_refl eq_refl eq_refl) as (Hget & Hobject & Hagain).
  split; [exact Hget|]. split; [apply Hobject; left; reflexivity | exact Hagain].
Defined.

(** C10.  When [createConnection] constructs a player, the player is in
    the registry before it is asked to connect.  There is an instance
    [registered], in which the session key reads the player, the object
    of the player is in the heap and no call was added yet, such that
    whatever [connect] does, it is on [registered] that it is invoked,
    and the player is returned after it; for the [connect] that records
    its call, the instance that the call leaves is [registered] with
    this one call.  After the call, [get(sessionKey)] is the player
    that was returned. *)
Theorem createConnection_registers_first this options player this' :
  get (ConnectionOptions.guildId options) this = None ->
  createConnection options this = (Return player, this') ->
  get (ConnectionOptions.guildId options) this' = Some player /\
  exists registered,
    get (ConnectionOptions.guildId options) registered = Some player /\
    heap_get player (Poru.heap registered) <> None /\
    Poru.calls registered = Poru.calls this /\
    this' = after (call (PlayerConnect player options)) registered /\
    forall connect : ConnectFn,
      createConnectionWith connect options this
      = (connect player options ;;; ret player) registered.
Proof.
  intros Hnone H. split; [apply (createConnection_returns _ _ _ _ H)|].
  unfold createConnection, createConnectionWith, get in *. run.
  rewrite Hnone in *.
  destruct (Poru.isActivated this); cbn [negb] in *; [|discriminate].
  destruct (List.length (leastUsedNodes this) =? 0)%nat; [discriminate|].
  pose proof (selectNode_state options this) as Hst.
  destruct (selectNode options this) as [[[node|]|e] this1];
    cbn in Hst; subst this1; try discriminate.
  unfold createPlayerWith, recordConnect in *. run.
  inversion H; subst; clear H.
  match goal with
  | |- exists r, _ /\ _ /\ _ /\ Poru.set_calls _ ?s = _ /\ _ => exists s
  end.
  split; [cbn; apply JsMapFacts.get_set|].
  split; [cbn; unfold heap_get; rewrite nth_error_app2 by lia;
          rewrite Nat.sub_diag; discriminate|].
  split; [reflexivity|]. split; [reflexivity|].
  intros connect. reflexivity.
Qed.

Lemma createConnection_registers_first_witness :
  get "guild-1" Sample.withPlayer = Some 0 /\
  result (createConnectionWith Scenario.connectChecked (Sample.connect None))
    Sample.activated
  = Return 0.
Proof.
  destruct (createConnection_registers_first Sample.activated
              (Sample.connect None) 0 Sample.withPlayer eq_refl eq_refl)
    as (Hafter & registered & Hget & _ & _ & _ & Hany).
  split; [exact Hafter|].
  unfold result. rewrite (Hany Scenario.connectChecked).
  unfold Scenario.connectChecked. run. cbn in Hget. cbn. rewrite Hget.
  reflexivity.
Defined.

(** ** Activation *)

(** Registering the configured nodes touches the node registry and the
    calls, and nothing else. *)
Lemma forEach_registerNode l :
  forall this, exists registry log,
    forEach l registerNode this
    = (Return tt, Poru.set_calls log (Poru.set_nodes registry this)).
Proof.
  induction l as [|g l IH]; intros this.
  - exists (Poru.nodes this), (Poru.calls this). destruct this; reflexivity.
  - cbn [forEach]. unfold registerNode at 1, addNode. run.
    match goal with
    | |- context [forEach l _ ?s] => destruct (IH s) as (r & c & ->)
    end.
    exists r, c. reflexivity.
Qed.

(** Loading the plugins touches the calls alone. *)
Lemma forEach_loadPlugin l :
  forall this, exists log,
    forEach l loadPlugin this = (Return tt, Poru.set_calls log this).
Proof.
  induction l as [|p l IH]; intros this.
  - exists (Poru.calls this). destruct this; reflexivity.
  - cbn [forEach]. unfold loadPlugin at 1. run.
    match goal with
    | |- context [forEach l _ ?s] => destruct (IH s) as (c & ->)
    end.
    exists c. reflexivity.
Qed.

Lemma selectAdapter_isActivated this :
  Poru.isActivated (snd (selectAdapter this)) = Poru.isActivated this.
Proof.
  unfold selectAdapter. run.
  destruct (PoruOptions.library (Poru.options this)) as [library|];
    [|reflexivity].
  repeat match goal with
         | |- context [String.eqb ?a ?b] => destruct (String.eqb a b)
         end; try reflexivity.
  destruct (Poru.send this); reflexivity.
Qed.

(** With the identity of the client at hand, [init] reaches the choice
    of the adapter, and reaches it activated, with the field [send] as
    it was. *)
Lemma init_reaches_adapter client this id :
  Poru.isActivated this = false ->
  Client.user_id client = Some id ->
  exists ready,
    init client this = selectAdapter ready /\
    Poru.isActivated ready = true /\
    Poru.userId ready = Some id /\
    Poru.send ready = Poru.send this /\
    PoruOptions.send (Poru.options ready)
    = PoruOptions.send (Poru.options this) /\
    PoruOptions.library (Poru.options ready)
    = (if falsy (PoruOptions.library (Poru.options this))
       then Some "discord.js"
       else PoruOptions.library (Poru.options this)).
Proof.
  intros Hact Hid. unfold init. run. rewrite Hact, Hid.
  match goal with
  | |- context [forEach (Poru._nodes this) _ ?s] =>
      destruct (forEach_registerNode (Poru._nodes this) s) as (r & c & ->)
  end.
  destruct (PoruOptions.plugins (Poru.options this)) as [plugins|].
  - match goal with
    | |- context [forEach plugins _ ?s] =>
        destruct (forEach_loadPlugin plugins s) as (c' & ->)
    end.
    destruct (falsy (PoruOptions.library (Poru.options this)));
      eexists; (split; [reflexivity|]); cbn; auto 6.
  - destruct (falsy (PoruOptions.library (Poru.options this)));
      eexists; (split; [reflexivity|]); cbn; auto 6.
Qed.

(** C2, amended.  On an instance that is not activated, whenever the
    client has an identity the instance is activated after [init],
    whether the call returns or throws: the flag is set once the
    configured nodes are registered, and neither the plugins nor the
    choice of the adapter are waited for.  In particular the instance
    is activated after a call that throws MissingSendFunction. *)
Theorem init_activates_early client this :
  Poru.isActivated this = false ->
  (forall id, Client.user_id client = Some id ->
              Poru.isActivated (after (init client) this) = true) /\
  (result (init client) this = Throw MissingSendFunction ->
   Poru.isActivated (after (init client) this) = true).
Proof.
  intros Hact.
  assert (Hid : forall id, Client.user_id client = Some id ->
                Poru.isActivated (after (init client) this) = true).
  { intros id Hid.
    destruct (init_reaches_adapter client this id Hact Hid)
      as (ready & Heq & Hready & _).
    unfold after. rewrite Heq, selectAdapter_isActivated. exact Hready. }
  split; [exact Hid|].
  destruct (Client.user_id client) as [id|] eqn:E; [eauto|].
  unfold init. run. rewrite Hact, E. cbn. discriminate.
Qed.

Lemma init_activates_early_witness :
  Poru.isActivated Sample.freshOtherNoSend = false /\
  result (init Sample.client) Sample.freshOtherNoSend
  = Throw MissingSendFunction /\
  Poru.isActivated (after (init Sample.client) Sample.freshOtherNoSend) = true.
Proof.
  split; [reflexivity|]. split; [reflexivity|].
  apply (init_activates_early Sample.client Sample.freshOtherNoSend);
    reflexivity.
Defined.

(** C2 as it is stated fails: with the library ["other"] and no send
    function, [init] throws MissingSendFunction and the instance, which
    was not activated, is activated afterwards. *)
Lemma init_missing_send_leaves_activated :
  Poru.isActivated Sample.freshOtherNoSend = false /\
  ~ (result (init Sample.client) Sample.freshOtherNoSend
     = Throw MissingSendFunction ->
     Poru.isActivated (after (init Sample.client) Sample.freshOtherNoSend)
     = false).
Proof.
  split; [reflexivity|]. intros H.
  specialize (H eq_refl). vm_compute in H. discriminate.
Qed.

(** C3.  On a fresh instance with the library ["other"], [init] throws
    MissingSendFunction whether or not the options carry a send
    function: the test reads the field [send] of the instance, which
    the constructor has set to [null], and not [options.send], which
    the message of the error and the assignment that follows speak
    of. *)
Theorem init_other_ignores_options_send client nodes options version id :
  Client.user_id client = Some id ->
  PoruOptions.library options = Some "other" ->
  result (init client) (constructor nodes options version)
  = Throw MissingSendFunction.
Proof.
  intros Hid Hlib.
  destruct (init_reaches_adapter client (constructor nodes options version) id
              eq_refl Hid) as (ready & Heq & _ & _ & Hsend & _ & Hready).
  cbn in Hsend, Hready. rewrite Hlib in Hready. cbn in Hready.
  unfold result. rewrite Heq. unfold selectAdapter. run.
  rewrite Hready. cbn. rewrite Hsend. reflexivity.
Qed.

Lemma init_other_ignores_options_send_witness :
  PoruOptions.send (Poru.options Sample.freshOther) = Some (SendCustom 0) /\
  result (init Sample.client) Sample.freshOther = Throw MissingSendFunction.
Proof.
  split; [reflexivity|].
  apply (init_other_ignores_options_send Sample.client [Sample.usGroup]
           Sample.otherOptions "4.0.0" "1000"); reflexivity.
Defined.

Lemma createConnection_gate this options :
  result (createConnection options) this = Throw NotActivated
  <-> Poru.isActivated this = false.
Proof.
  unfold createConnection, createConnectionWith, createPlayerWith, recordConnect.
  run.
  destruct (Poru.isActivated this); cbn [negb fst]; split;
    try reflexivity; try discriminate.
  destruct (JsMap.get _ (Poru.players this)); [discriminate|].
  destruct (List.length (leastUsedNodes this) =? 0)%nat; [discriminate|].
  destruct (selectNode options this) as [[[node|]|e] this1] eqn:E;
    try discriminate.
  intros H. cbn in H. inversion H; subst e. exfalso.
  revert E. unfold selectNode. run.
  destruct (ConnectionOptions.region options) as [r|];
    [destruct (JsString.truthy r);
       [destruct (nth_error (getNodeByRegion r this) 0) as [region|];
          [destruct (JsString.truthy (Node.name region))|]|]|];
    try discriminate;
    destruct (nth_error (leastUsedNodes this) 0); discriminate.
Qed.

Lemma resolve_gate this o node :
  result (resolve o node) this = Throw NotActivated
  <-> Poru.isActivated this = false.
Proof.
  unfold resolve, restGet. run.
  destruct (Poru.isActivated this); cbn [negb fst]; split;
    try reflexivity; try discriminate.
  destruct (match node with Some n => Some n | None => _ end);
    [|discriminate].
  destruct (JsString.isUrl _); discriminate.
Qed.

(** C4, amended.  [createConnection] and [resolve] fail with
    NotActivated exactly when the instance is not activated, so the
    same call does not fail with NotActivated once it is.  The calls on
    the node registry ([addNode], [removeNode], [getNode]) and
    [removeConnection] are not gated: they never fail with
    NotActivated. *)
Theorem activation_gate this :
  (forall options,
      result (createConnection options) this = Throw NotActivated
      <-> Poru.isActivated this = false) /\
  (forall o node,
      result (resolve o node) this = Throw NotActivated
      <-> Poru.isActivated this = false) /\
  (forall options, result (addNode options) this <> Throw NotActivated) /\
  (forall identifier,
      result (removeNode identifier) this <> Throw NotActivated) /\
  (forall identifier,
      result (getNode identifier) this <> Throw NotActivated) /\
  (forall guildId,
      result (removeConnection guildId) this <> Throw NotActivated).
Proof.
  split; [intros; apply createConnection_gate|].
  split; [intros; apply resolve_gate|].
  split; [|split; [|split]].
  - intros options. unfold addNode. run. discriminate.
  - intros identifier. unfold removeNode. run.
    destruct (JsMap.get identifier (Poru.nodes this)); discriminate.
  - intros identifier. unfold getNode. run.
    destruct (JsMap.size (Poru.nodes this) =? 0)%nat; [discriminate|].
    destruct (String.eqb _ "auto"); [discriminate|].
    destruct (JsMap.get _ (Poru.nodes this)) as [node|]; [|discriminate].
    destruct (Node.isConnected node); discriminate.
  - intros guildId. unfold removeConnection. run.
    destruct (JsMap.get guildId (Poru.players this)); discriminate.
Qed.

(** C4 as it is stated fails: on an instance that is not activated,
    removing a player, removing a node and selecting a node return, and
    do not fail with NotActivated. *)
Lemma ungated_calls_before_activation :
  Poru.isActivated Sample.notActivated = false /\
  result (removeConnection "guild-1") Sample.notActivated = Return tt /\
  result (removeNode "us-1") Sample.notActivated = Return tt /\
  result (getNode (Some "us-1")) Sample.notActivated
  = Return (OneNode Sample.usNode).
Proof.
  split; [reflexivity|]. split; [reflexivity|].
  split; reflexivity.
Qed.

(** ** Packet routing *)

Lemma isVoiceKind_false t :
  t <> Some "VOICE_STATE_UPDATE" -> t <> Some "VOICE_SERVER_UPDATE" ->
  isVoiceKind t = false.
Proof.
  intros H1 H2. destruct t as [k|]; [|reflexivity].
  unfold isVoiceKind, JsString.includes, voiceKinds. cbn [existsb].
  destruct (String.eqb_spec k "VOICE_STATE_UPDATE"); [congruence|].
  destruct (String.eqb_spec k "VOICE_SERVER_UPDATE"); [congruence|].
  reflexivity.
Qed.

Lemma strict_neq_of_neq a b : a <> b -> strict_neq a b = true.
Proof.
  destruct a as [x|], b as [y|]; simpl; intros H; try reflexivity.
  destruct (String.eqb_spec x y); [congruence|reflexivity].
Qed.

(** C8.  A packet whose kind is neither voice-state-update nor
    voice-server-update, or whose session key has no player, or that is
    a voice-state-update of a user other than the instance itself, is
    dropped: [packetUpdate] returns without an exception and leaves the
    instance as it is, so that no connection of a player has received
    an update and no collaborator, from which a notification could
    come, was called. *)
Theorem packetUpdate_drops this packet :
  (Packet.t packet <> Some "VOICE_STATE_UPDATE" /\
   Packet.t packet <> Some "VOICE_SERVER_UPDATE") \/
  (exists d, Packet.d packet = Some d /\
             get (PacketData.guild_id d) this = None) \/
  (exists d, Packet.t packet = Some "VOICE_STATE_UPDATE" /\
             Packet.d packet = Some d /\
             PacketData.user_id d <> Poru.userId this) ->
  packetUpdate packet this = (Return tt, this).
Proof.
  unfold packetUpdate, get. run.
  intros [[H1 H2]|[(d & Hd & Hnone)|(d & Ht & Hd & Hneq)]].
  - rewrite (isVoiceKind_false _ H1 H2). reflexivity.
  - destruct (isVoiceKind (Packet.t packet)); [|reflexivity].
    cbn [negb]. rewrite Hd, Hnone. reflexivity.
  - rewrite Ht, Hd. cbn.
    destruct (JsMap.get _ (Poru.players this)); [|reflexivity].
    rewrite (strict_neq_of_neq _ _ Hneq). reflexivity.
Qed.

Lemma packetUpdate_drops_witness :
  get "guild-1" Sample.withPlayer = Some 0 /\
  packetUpdate
    (Packet.new (Some "VOICE_STATE_UPDATE") (Some (Sample.stateUpdate "7")))
    Sample.withPlayer
  = (Return tt, Sample.withPlayer).
Proof.
  split; [reflexivity|].
  apply (packetUpdate_drops Sample.withPlayer
           (Packet.new (Some "VOICE_STATE_UPDATE")
              (Some (Sample.stateUpdate "7")))).
  right. right. exists (Sample.stateUpdate "7").
  split; [reflexivity|]. split; [reflexivity|]. discriminate.
Defined.

(** ** Track resolution *)

Lemma sourceOr_spec source :
  sourceOr source
  = match source with
    | None | Some EmptyString => "ytsearch"
    | Some s => s
    end.
Proof. destruct source as [[|c s]|]; reflexivity. Qed.

(** C9.  On an activated instance, with a node given or a connected
    node in the registry, [resolve] asks a node to load the tracks of
    an identifier that, once percent-decoded, is the query itself when
    the query begins with [http://] or [https://], and is
    [source:query] otherwise, [ytsearch] standing for a source that is
    not set. *)
Theorem resolve_identifier this o node :
  Poru.isActivated this = true ->
  (node <> None \/
   exists n, In n (JsMap.values (Poru.nodes this))
             /\ Node.isConnected n = true) ->
  exists target identifier,
    let request := RestGet (Node.name target) (loadTracks ++ identifier) in
    resolve o node this
    = (Return (Response.new request (ResolveOptions.requester o)),
       Poru.set_calls (Rest request :: Poru.calls this) this) /\
    JsString.percentDecode identifier
    = Some (specIdentifier (ResolveOptions.query o) (ResolveOptions.source o)).
Proof.
  intros Hact Hnode.
  assert (Hsome : exists target,
             match node with
             | Some n => Some n
             | None => nth_error (leastUsedNodes this) 0
             end = Some target).
  { destruct node as [n|]; [eauto|].
    destruct Hnode as [H|H]; [congruence|].
    apply leastUsedNodes_nonempty in H.
    destruct (leastUsedNodes this) as [|n l]; [congruence|].
    exists n. reflexivity. }
  destruct Hsome as [target Htarget]. exists target.
  unfold resolve, restGet, specIdentifier, JsString.isUrl. run.
  rewrite Hact. cbn [negb]. rewrite Htarget.
  destruct (String.prefix "http://" (ResolveOptions.query o)
            || String.prefix "https://" (ResolveOptions.query o)).
  - eexists. split; [reflexivity|].
    apply JsStringFacts.percentDecode_encodeURIComponent.
  - eexists. split; [reflexivity|].
    rewrite JsStringFacts.percentDecode_encodeURIComponent, sourceOr_spec.
    destruct (ResolveOptions.source o) as [[|c s]|]; reflexivity.
Qed.

Lemma resolve_identifier_witness :
  exists target identifier,
    let request := RestGet (Node.name target) (loadTracks ++ identifier) in
    resolve (ResolveOptions.new "rick astley" (Some "ytsearch") None) None
      Sample.activated
    = (Return (Response.new request None),
       Poru.set_calls (Rest request :: []) Sample.activated) /\
    JsString.percentDecode identifier = Some "ytsearch:rick astley".
Proof.
  apply (resolve_identifier Sample.activated
           (ResolveOptions.new "rick astley" (Some "ytsearch") None) None).
  - reflexivity.
  - right. exists Sample.usNode. split; [left|]; reflexivity.
Defined.

(** ** The sample instances at work *)

(** [init] with the library ["discord.js"] completes: the node is
    registered and asked to connect, the adapter is installed and the
    packets of the client are subscribed to. *)
Example init_discord_js :
  let this := constructor [Sample.usGroup] Sample.discordOptions "4.0.0" in
  result (init Sample.client) this = Return tt /\
  Poru.isActivated (after (init Sample.client) this) = true /\
  Poru.userId (after (init Sample.client) this) = Some "1000" /\
  Poru.send (after (init Sample.client) this) = Some SendDiscordJs /\
  Poru.calls (after (init Sample.client) this)
  = [ClientOn "raw"; NodeConnect "us-1"].
Proof. repeat split. Qed.

(** A second [init] changes nothing. *)
Example init_twice :
  init Sample.client Sample.activated = (Return tt, Sample.activated).
Proof. reflexivity. Qed.

(** With a node for the region, the player is bound to it, although
    another node has the lower penalty. *)
Example createConnection_by_region :
  result (createConnection (Sample.connect (Some "US"))) Sample.activated
  = Return 0 /\
  option_map Player.node
    (heap_get 0
       (Poru.heap
          (after (createConnection (Sample.connect (Some "US"))) Sample.activated)))
  = Some Sample.usNode.
Proof. split; reflexivity. Qed.

(** Without a region, the player is bound to the node of least
    penalty. *)
Example createConnection_least_used :
  option_map Player.node (heap_get 0 (Poru.heap Sample.withPlayer))
  = Some Sample.euNode.
Proof. reflexivity. Qed.

(** A voice-server-update for a session that has a player reaches the
    connection of the player. *)
Example packetUpdate_server_update :
  option_map Player.connection
    (heap_get 0
       (Poru.heap
          (after
             (packetUpdate
                (Packet.new (Some "VOICE_SERVER_UPDATE")
                   (Some Sample.serverUpdate)))
             Sample.withPlayer)))
  = Some [Connection.ServersUpdate Sample.serverUpdate].
Proof. reflexivity. Qed.

(** A voice-state-update of the instance itself reaches it too. *)
Example packetUpdate_own_state_update :
  option_map Player.connection
    (heap_get 0
       (Poru.heap
          (after
             (packetUpdate
                (Packet.new (Some "VOICE_STATE_UPDATE")
                   (Some (Sample.stateUpdate "1000"))))
             Sample.withPlayer)))
  = Some [Connection.StateUpdate (Sample.stateUpdate "1000")].
Proof. reflexivity. Qed.

(** The request of [resolve] for a URL and for a search. *)
Example resolve_url :
  result
    (resolve (ResolveOptions.new "https://example.com/x" None None) None)
    Sample.activated
  = Return
      (Response.new
         (RestGet "eu-1"
            "/v3/loadtracks?identifier=https%3A%2F%2Fexample.com%2Fx")
         None) /\
  JsString.percentDecode "https%3A%2F%2Fexample.com%2Fx"
  = Some "https://example.com/x".
Proof. split; reflexivity. Qed.

Example resolve_search :
  result
    (resolve (ResolveOptions.new "rick astley" (Some "ytsearch") None) None)
    Sample.activated
  = Return
      (Response.new
         (RestGet "eu-1" "/v3/loadtracks?identifier=ytsearch%3Arick%20astley")
         None).
Proof. reflexivity. Qed.

(** The two nodes by ascending penalty, and their cpu loads: [12.5] for
    half a load on four cores, [0] without statistics. *)
Example leastUsedNodes_sample :
  leastUsedNodes Sample.activated = [Sample.euNode; Sample.usNode].
Proof. reflexivity. Qed.

Example cpuLoad_sample :
  cpuLoad Sample.usNode = div (of_Z 25) (of_Z 2) /\
  cpuLoad Sample.euNode = zero.
Proof. split; vm_compute; reflexivity. Qed.

(** * Further properties *)


(** ** The node registry *)

(** X1.  [addNode] stores the handle it returns under the name of the
    descriptor, leaves every other name as it was, asks the handle to
    connect once, and touches neither the players nor the
    activation. *)
Theorem addNode_registers options this :
  exists node,
    result (addNode options) this = Return node /\
    JsMap.get (NodeGroup.name options)
      (Poru.nodes (after (addNode options) this)) = Some node /\
    (forall k, k <> NodeGroup.name options ->
               JsMap.get k (Poru.nodes (after (addNode options) this))
               = JsMap.get k (Poru.nodes this)) /\
    Poru.calls (after (addNode options) this)
    = NodeConnect (Node.name node) :: Poru.calls this /\
    Poru.players (after (addNode options) this) = Poru.players this /\
    Poru.heap (after (addNode options) this) = Poru.heap this /\
    Poru.isActivated (after (addNode options) this) = Poru.isActivated this.
Proof.
  exists (Node.new options). unfold addNode. run. cbn.
  split; [reflexivity|].
  split; [apply JsMapFacts.get_set|].
  split; [|auto].
  intros k Hk. apply JsMapFacts.get_set_other. congruence.
Qed.

(** X2.  Adding a node under a name that is registered replaces the
    handle and keeps the size of the registry; under a new name the
    registry grows by one.  A registry without a name twice stays
    so. *)
Theorem addNode_size options this :
  NoDup (map fst (Poru.nodes this)) ->
  NoDup (map fst (Poru.nodes (after (addNode options) this))) /\
  JsMap.size (Poru.nodes (after (addNode options) this))
  = match JsMap.get (NodeGroup.name options) (Poru.nodes this) with
    | Some _ => JsMap.size (Poru.nodes this)
    | None => S (JsMap.size (Poru.nodes this))
    end.
Proof.
  intros H. unfold addNode. run. cbn.
  split; [apply RegistryFacts.NoDup_keys_set, H | apply RegistryFacts.size_set].
Qed.

Lemma addNode_size_witness :
  JsMap.size (Poru.nodes (after (addNode Sample.usGroup) Sample.activated)) = 2%nat.
Proof.
  apply (addNode_size Sample.usGroup Sample.activated).
  repeat constructor; simpl; intuition discriminate.
Defined.

(** X3.  [removeNode] always returns.  In a registry without a name
    twice the name is not registered afterwards and every other name
    reads as before.  For a name that was not registered nothing
    changes at all; for a registered one the handle is asked to
    disconnect and the registry shrinks by one. *)
Theorem removeNode_spec identifier this :
  NoDup (map fst (Poru.nodes this)) ->
  result (removeNode identifier) this = Return tt /\
  JsMap.get identifier (Poru.nodes (after (removeNode identifier) this)) = None /\
  (forall k, k <> identifier ->
             JsMap.get k (Poru.nodes (after (removeNode identifier) this))
             = JsMap.get k (Poru.nodes this)) /\
  match JsMap.get identifier (Poru.nodes this) with
  | None => after (removeNode identifier) this = this
  | Some node =>
      Poru.calls (after (removeNode identifier) this)
      = NodeDisconnect (Node.name node) :: Poru.calls this /\
      S (JsMap.size (Poru.nodes (after (removeNode identifier) this)))
      = JsMap.size (Poru.nodes this)
  end.
Proof.
  intros Hnd. unfold removeNode. run.
  destruct (JsMap.get identifier (Poru.nodes this)) as [node|] eqn:E; cbn.
  - split; [reflexivity|].
    split; [apply RegistryFacts.get_delete, Hnd|].
    split; [intros k Hk; apply RegistryFacts.get_delete_other; congruence|].
    split; [reflexivity | eapply RegistryFacts.size_delete, E].
  - auto.
Qed.

Lemma removeNode_spec_witness :
  JsMap.get "us-1" (Poru.nodes (after (removeNode "us-1") Sample.activated)) = None /\
  JsMap.get "eu-1" (Poru.nodes (after (removeNode "us-1") Sample.activated))
  = Some Sample.euNode.
Proof.
  assert (Hnd : NoDup (map fst (Poru.nodes Sample.activated)))
    by (repeat constructor; simpl; intuition discriminate).
  destruct (removeNode_spec "us-1" Sample.activated Hnd) as (_ & H1 & H2 & _).
  split; [exact H1|]. rewrite H2 by discriminate. reflexivity.
Defined.

(** X4.  Adding a node under a name that is not registered and removing
    it again gives back the registry; the handle was asked to connect
    and then to disconnect. *)
Theorem addNode_removeNode options this :
  JsMap.get (NodeGroup.name options) (Poru.nodes this) = None ->
  let this' :=
    after (removeNode (NodeGroup.name options)) (after (addNode options) this) in
  Poru.nodes this' = Poru.nodes this /\
  Poru.calls this'
  = NodeDisconnect (NodeGroup.name options)
      :: NodeConnect (NodeGroup.name options) :: Poru.calls this.
Proof.
  intros H. unfold removeNode, addNode. run. cbn.
  rewrite JsMapFacts.get_set. cbn.
  rewrite RegistryFacts.delete_set by exact H. auto.
Qed.

Lemma addNode_removeNode_witness :
  Poru.nodes
    (after (removeNode "eu-1") (after (addNode Sample.euGroup) Sample.activatedUs))
  = [("us-1", Sample.usNode)].
Proof.
  apply (addNode_removeNode Sample.euGroup Sample.activatedUs). reflexivity.
Defined.

(** X5.  [getNode] with a name never touches the registries.  In a
    registry that is not empty it fails with NodeNotFound for a name
    that is not registered, returns the handle registered under the
    name otherwise, and asks the handle to connect exactly when the
    handle is not connected. *)
Theorem getNode_named identifier this :
  identifier <> "auto" ->
  Poru.nodes this <> [] ->
  Poru.nodes (after (getNode (Some identifier)) this) = Poru.nodes this /\
  Poru.players (after (getNode (Some identifier)) this) = Poru.players this /\
  match JsMap.get identifier (Poru.nodes this) with
  | None =>
      getNode (Some identifier) this = (Throw NodeNotFound, this)
  | Some node =>
      result (getNode (Some identifier)) this = Return (OneNode node) /\
      Poru.calls (after (getNode (Some identifier)) this)
      = if Node.isConnected node then Poru.calls this
        else NodeConnect (Node.name node) :: Poru.calls this
  end.
Proof.
  intros Hauto Hne. unfold getNode. run.
  destruct (Poru.nodes this) as [|e m] eqn:Hm; [congruence|].
  cbn [JsMap.size List.length Nat.eqb].
  destruct (String.eqb_spec identifier "auto"); [congruence|].
  destruct (JsMap.get identifier (e :: m)) as [node|]; cbn.
  - destruct (Node.isConnected node); cbn; rewrite ?Hm; auto.
  - rewrite Hm. auto.
Qed.

Lemma getNode_named_witness :
  getNode (Some "nowhere") Sample.activated = (Throw NodeNotFound, Sample.activated).
Proof.
  apply (getNode_named "nowhere" Sample.activated); discriminate.
Defined.

(** ** Node selection *)

Module SortFacts.
Import JsArray.

Section Ordered.
Context {A : Type}.
Variable comparefn : A -> A -> number.

(** An element that nothing in the list must follow goes to the end. *)
Lemma insert_last x l :
  Forall (fun y => in_order comparefn y x) l ->
  insert comparefn x l = (l ++ [x])%list.
Proof.
  induction 1 as [|y l Hy Hl IH]; simpl; [reflexivity|].
  unfold in_order in Hy. rewrite Hy, IH. reflexivity.
Qed.

Lemma fold_insert_ordered l :
  forall acc,
    ForallOrdPairs (in_order comparefn) (acc ++ l) ->
    fold_left (fun sorted x => insert comparefn x sorted) l acc
    = (acc ++ l)%list.
Proof.
  induction l as [|x l IH]; intros acc H; simpl.
  - rewrite app_nil_r. reflexivity.
  - rewrite insert_last.
    + rewrite IH; rewrite <- app_assoc; [reflexivity | exact H].
    + clear IH. induction acc as [|a acc IHacc]; [constructor|].
      simpl in H. inversion H as [|? ? Ha Hrest]; subst.
      constructor; [|apply IHacc, Hrest].
      rewrite Forall_forall in Ha. apply Ha.
      apply in_or_app. right. left. reflexivity.
Qed.

(** A list in which no element must follow a later one is left as it
    is. *)
Lemma sort_ordered l :
  ForallOrdPairs (in_order comparefn) l -> sort comparefn l = l.
Proof. intros H. apply (fold_insert_ordered l []). exact H. Qed.

End Ordered.

Lemma sub_self_not_pos x : is_pos (sub x x) = false.
Proof.
  destruct (is_pos (sub x x)) eqn:E; [|reflexivity].
  rewrite (JsNumberFacts.sub_pos_antisym _ _ E) in E. discriminate.
Qed.

Lemma ForallOrdPairs_all {A} (R : A -> A -> Prop) l :
  (forall a b, In a l -> In b l -> R a b) -> ForallOrdPairs R l.
Proof.
  induction l as [|x l IH]; intros H; constructor.
  - apply Forall_forall. intros y Hy. apply H; simpl; auto.
  - apply IH. intros a b Ha Hb. apply H; simpl; auto.
Qed.

End SortFacts.

(** X6.  [leastUsedNodes] holds the connected nodes of the registry and
    no other, each as often as the registry does, in ascending order of
    penalty: the penalty of a node minus the penalty of the next is
    never positive.  Without a connected node it is empty. *)
Theorem leastUsedNodes_spec this :
  (forall node,
      In node (leastUsedNodes this) <->
      In node (JsMap.values (Poru.nodes this)) /\
      Node.isConnected node = true) /\
  Permutation (leastUsedNodes this) (connectedNodes this) /\
  Sorted
    (fun a b => is_pos (sub (Node.penalties a) (Node.penalties b)) = false)
    (leastUsedNodes this) /\
  ((forall node, In node (JsMap.values (Poru.nodes this)) ->
                 Node.isConnected node = false) ->
   leastUsedNodes this = []).
Proof.
  unfold leastUsedNodes, connectedNodes. split; [|split; [|split]].
  - intros node. rewrite JsArrayFacts.sort_In. apply filter_In.
  - apply JsArrayFacts.sort_perm.
  - apply (JsArrayFacts.sort_sorted byPenalties).
    intros a b. apply JsNumberFacts.sub_pos_antisym.
  - intros H. rewrite JsArrayFacts.filter_none by exact H. reflexivity.
Qed.

(** X7.  When the connected nodes stand in the registry in ascending
    order of penalty already, no node having a penalty above that of a
    node registered after it, [leastUsedNodes] gives them in the order
    of the registry. *)
Theorem leastUsedNodes_keeps_order this :
  ForallOrdPairs
    (fun a b => is_pos (sub (Node.penalties a) (Node.penalties b)) = false)
    (connectedNodes this) ->
  leastUsedNodes this = connectedNodes this.
Proof.
  intros H. unfold leastUsedNodes.
  apply (SortFacts.sort_ordered byPenalties). exact H.
Qed.

Lemma leastUsedNodes_keeps_order_witness :
  leastUsedNodes Scenario.ascending = [Sample.euNode; Sample.usNode].
Proof.
  apply (leastUsedNodes_keeps_order Scenario.ascending).
  repeat constructor.
Defined.

(** X8.  Connected nodes of one and the same penalty come in the order
    in which they were registered. *)
Theorem leastUsedNodes_equal_penalties this :
  (forall a b, In a (connectedNodes this) -> In b (connectedNodes this) ->
               Node.penalties a = Node.penalties b) ->
  leastUsedNodes this = connectedNodes this.
Proof.
  intros H. unfold leastUsedNodes.
  apply (SortFacts.sort_ordered byPenalties).
  apply SortFacts.ForallOrdPairs_all. intros a b Ha Hb.
  unfold JsArray.in_order, byPenalties. rewrite (H a b Ha Hb).
  apply SortFacts.sub_self_not_pos.
Qed.

Lemma leastUsedNodes_equal_penalties_witness :
  leastUsedNodes Scenario.level = [Scenario.nodeA; Scenario.nodeB].
Proof.
  apply (leastUsedNodes_equal_penalties Scenario.level).
  intros a b [<-|[<-|[]]] [<-|[<-|[]]]; reflexivity.
Defined.

Lemma filter_ext_eq {A} (f g : A -> bool) l :
  (forall x, f x = g x) -> filter f l = filter g l.
Proof.
  intros H. induction l as [|x l IH]; simpl; [reflexivity|].
  rewrite H, IH. reflexivity.
Qed.

(** X9.  [getNodeByRegion] does not see the case of the region it is
    asked for: two requests that agree once lower-cased give the same
    nodes. *)
Theorem getNodeByRegion_request_case this region region' :
  JsString.toLowerCase region = JsString.toLowerCase region' ->
  getNodeByRegion region this = getNodeByRegion region' this.
Proof.
  intros H. unfold getNodeByRegion. f_equal.
  apply filter_ext_eq. intros node. unfold inRegion. rewrite H. reflexivity.
Qed.

Lemma getNodeByRegion_request_case_witness :
  getNodeByRegion "US" Sample.activated = getNodeByRegion "us" Sample.activated /\
  getNodeByRegion "us" Sample.activated = [Sample.usNode].
Proof.
  split; [|reflexivity].
  apply (getNodeByRegion_request_case Sample.activated "US" "us"). reflexivity.
Defined.

(** ** The player registry *)

(** What [createPlayer] leaves: the object at a fresh address, the
    address under the session key, and the call of [connect]. *)
Lemma createPlayer_state node options this :
  createPlayer node options this
  = (Return (List.length (Poru.heap this)),
     Poru.set_calls
       (PlayerConnect (List.length (Poru.heap this)) options :: Poru.calls this)
       (Poru.set_players
          (JsMap.set (ConnectionOptions.guildId options)
             (List.length (Poru.heap this)) (Poru.players this))
          (Poru.set_heap
             (Poru.heap this
                ++ [match PoruOptions.customPlayer (Poru.options this) with
                    | Some custom => custom node options
                    | None => Player.new node options
                    end])%list
             this))).
Proof. reflexivity. Qed.

(** The three ways of [createConnection]: it throws and changes
    nothing, or returns the player of the session key and changes
    nothing, or creates a player for a session key that had none. *)
Lemma createConnection_cases options this :
  (exists e, createConnection options this = (Throw e, this)) \/
  (exists player,
      JsMap.get (ConnectionOptions.guildId options) (Poru.players this)
      = Some player /\
      createConnection options this = (Return player, this)) \/
  (exists node,
      JsMap.get (ConnectionOptions.guildId options) (Poru.players this) = None /\
      createConnection options this = createPlayer node options this).
Proof.
  unfold createConnection, createConnectionWith. fold createPlayer. run.
  destruct (Poru.isActivated this); cbn [negb]; [|eauto].
  destruct (JsMap.get _ (Poru.players this)) as [p|] eqn:Hget; [eauto|].
  destruct (List.length (leastUsedNodes this) =? 0)%nat; [eauto|].
  pose proof (selectNode_state options this) as Hst.
  destruct (selectNode options this) as [[[node|]|e] this1];
    cbn in Hst; subst this1; eauto.
Qed.

(** X10.  On an activated instance, for a session key without a player,
    [createConnection] fails with NoNodesAvailable when no node of the
    registry is connected, be the registry empty or not, and changes
    nothing. *)
Theorem createConnection_no_nodes options this :
  Poru.isActivated this = true ->
  get (ConnectionOptions.guildId options) this = None ->
  (forall node, In node (JsMap.values (Poru.nodes this)) ->
                Node.isConnected node = false) ->
  createConnection options this = (Throw NoNodesAvailable, this).
Proof.
  intros Hact Hnone Hdown. unfold createConnection, createConnectionWith, get in *.
  fold createPlayer in *. run.
  rewrite Hact, Hnone. cbn [negb].
  unfold leastUsedNodes. rewrite JsArrayFacts.filter_none by exact Hdown.
  reflexivity.
Qed.

Lemma createConnection_no_nodes_witness :
  createConnection (Sample.connect None) Scenario.idle
  = (Throw NoNodesAvailable, Scenario.idle).
Proof.
  apply (createConnection_no_nodes (Sample.connect None) Scenario.idle).
  - reflexivity.
  - reflexivity.
  - intros node [<-|[]]. reflexivity.
Defined.

Lemma nodes_ok_get this node :
  nodes_ok this -> In node (JsMap.values (Poru.nodes this)) ->
  JsMap.get (Node.name node) (Poru.nodes this) = Some node.
Proof.
  intros [Hnd Hname] Hin. unfold JsMap.values in Hin.
  apply in_map_iff in Hin. destruct Hin as ([k n] & E & Hin). simpl in E. subst n.
  rewrite (Hname _ _ Hin). apply RegistryFacts.In_get; assumption.
Qed.

Lemma heap_get_new (h : list Player.t) object :
  heap_get (List.length h) (h ++ [object]) = Some object.
Proof.
  unfold heap_get. rewrite nth_error_app2 by lia.
  rewrite Nat.sub_diag. reflexivity.
Qed.

(** X11.  On an activated instance whose node registry holds each
    handle once, under its own name, a request without a region (or
    with the empty region) for a session key without a player creates
    a player from the first of [leastUsedNodes]: the object that the
    configured constructor builds for this node is what the returned
    address holds. *)
Theorem createConnection_least_used_node options this node rest :
  Poru.isActivated this = true ->
  nodes_ok this ->
  get (ConnectionOptions.guildId options) this = None ->
  (ConnectionOptions.region options = None \/
   ConnectionOptions.region options = Some "") ->
  leastUsedNodes this = node :: rest ->
  exists player,
    result (createConnection options) this = Return player /\
    heap_get player (Poru.heap (after (createConnection options) this))
    = Some match PoruOptions.customPlayer (Poru.options this) with
           | Some custom => custom node options
           | None => Player.new node options
           end.
Proof.
  intros Hact Hok Hnone Hregion Hleast.
  assert (Hget : JsMap.get (Node.name node) (Poru.nodes this) = Some node).
  { apply nodes_ok_get; [exact Hok|].
    apply leastUsedNodes_In. rewrite Hleast. left. reflexivity. }
  exists (List.length (Poru.heap this)).
  unfold createConnection, createConnectionWith, selectNode, get in *.
  fold createPlayer in *. run.
  rewrite Hact, Hnone, Hleast. cbn [negb List.length Nat.eqb]. cbv beta.
  rewrite Hleast. cbn [nth_error].
  destruct Hregion as [-> | ->]; cbn [JsString.truthy]; rewrite Hget;
    rewrite createPlayer_state; cbn; split; try reflexivity;
    apply heap_get_new.
Qed.

Lemma createConnection_least_used_node_witness :
  exists player,
    result (createConnection (Sample.connect None)) Sample.activated
    = Return player /\
    heap_get player
      (Poru.heap (after (createConnection (Sample.connect None)) Sample.activated))
    = Some (Player.new Sample.euNode (Sample.connect None)).
Proof.
  apply (createConnection_least_used_node (Sample.connect None)
           Sample.activated Sample.euNode [Sample.usNode]).
  - reflexivity.
  - split.
    + repeat constructor; simpl; intuition discriminate.
    + intros k n [E|[E|[]]]; inversion E; reflexivity.
  - reflexivity.
  - left. reflexivity.
  - reflexivity.
Defined.

(** X12.  With a region for which [getNodeByRegion] finds nodes, the
    player is created from the first of them, whatever the penalties,
    as long as the node bears a name. *)
Theorem createConnection_regional_node options this region node rest :
  Poru.isActivated this = true ->
  nodes_ok this ->
  get (ConnectionOptions.guildId options) this = None ->
  ConnectionOptions.region options = Some region ->
  JsString.truthy region = true ->
  getNodeByRegion region this = node :: rest ->
  JsString.truthy (Node.name node) = true ->
  exists player,
    result (createConnection options) this = Return player /\
    heap_get player (Poru.heap (after (createConnection options) this))
    = Some match PoruOptions.customPlayer (Poru.options this) with
           | Some custom => custom node options
           | None => Player.new node options
           end.
Proof.
  intros Hact Hok Hnone Hregion Htruthy Hfound Hname.
  assert (Hin : In node (JsMap.values (Poru.nodes this)) /\
                Node.isConnected node = true).
  { assert (H : In node (getNodeByRegion region this))
      by (rewrite Hfound; left; reflexivity).
    unfold getNodeByRegion in H.
    rewrite JsArrayFacts.sort_In, filter_In, inRegion_spec in H. tauto. }
  assert (Hget : JsMap.get (Node.name node) (Poru.nodes this) = Some node)
    by (apply nodes_ok_get; tauto).
  assert (Hup : (List.length (leastUsedNodes this) =? 0)%nat = false).
  { apply JsArrayFacts.length_zero, leastUsedNodes_nonempty. eauto. }
  exists (List.length (Poru.heap this)).
  unfold createConnection, createConnectionWith, selectNode, get in *.
  fold createPlayer in *. run.
  rewrite Hact, Hnone, Hup. cbn [negb]. cbv beta.
  rewrite Hregion, Htruthy, Hfound. cbn [nth_error].
  rewrite Hname, Hget, createPlayer_state. cbn.
  split; [reflexivity | apply heap_get_new].
Qed.

Lemma createConnection_regional_node_witness :
  exists player,
    result (createConnection (Sample.connect (Some "US"))) Sample.activated
    = Return player /\
    heap_get player
      (Poru.heap
         (after (createConnection (Sample.connect (Some "US"))) Sample.activated))
    = Some (Player.new Sample.usNode (Sample.connect (Some "US"))).
Proof.
  apply (createConnection_regional_node (Sample.connect (Some "US"))
           Sample.activated "US" Sample.usNode []).
  - reflexivity.
  - split.
    + repeat constructor; simpl; intuition discriminate.
    + intros k n [E|[E|[]]]; inversion E; reflexivity.
  - reflexivity.
  - reflexivity.
  - reflexivity.
  - reflexivity.
  - reflexivity.
Defined.

(** X13.  [createConnection] never touches the node registry, the
    options, the identity, the activation or the send function, never
    changes what another session key reads, and never changes a player
    object that is already in the heap.  When it throws it changes
    nothing at all. *)
Theorem createConnection_frame options this :
  let this' := after (createConnection options) this in
  Poru.nodes this' = Poru.nodes this /\
  Poru.options this' = Poru.options this /\
  Poru.userId this' = Poru.userId this /\
  Poru.isActivated this' = Poru.isActivated this /\
  Poru.send this' = Poru.send this /\
  (forall k, k <> ConnectionOptions.guildId options ->
             get k this' = get k this) /\
  (forall r object, heap_get r (Poru.heap this) = Some object ->
                    heap_get r (Poru.heap this') = Some object) /\
  (forall e, result (createConnection options) this = Throw e -> this' = this).
Proof.
  cbv zeta. unfold after, result.
  destruct (createConnection_cases options this)
    as [[e ->]|[(p & _ & ->)|(node & Hnone & ->)]]; cbn [fst snd].
  - repeat split; auto.
  - repeat split; auto; discriminate.
  - rewrite createPlayer_state. cbn [fst snd].
    split; [reflexivity|]. split; [reflexivity|]. split; [reflexivity|].
    split; [reflexivity|]. split; [reflexivity|].
    split; [|split; [|discriminate]].
    + intros k Hk. unfold get. cbn. apply JsMapFacts.get_set_other. congruence.
    + intros r object H. cbn. unfold heap_get in *.
      rewrite nth_error_app1; [exact H|].
      apply nth_error_Some. congruence.
Qed.

Lemma values_set_absent_snd {V} k (v : V) m :
  JsMap.get k m = None -> map snd (JsMap.set k v m) = (map snd m ++ [v])%list.
Proof. apply RegistryFacts.values_set_absent. Qed.

(** X14.  [createConnection] keeps the player registry sound: a
    session key has one player, no player serves two session keys, and
    every registered player is in the heap. *)
Theorem createConnection_players_ok options this :
  players_ok this -> players_ok (after (createConnection options) this).
Proof.
  intros (Hkeys & Hvals & Hvalid). unfold after.
  destruct (createConnection_cases options this)
    as [[e ->]|[(p & _ & ->)|(node & Hnone & ->)]]; cbn [fst snd];
    try (split; [|split]; assumption).
  rewrite createPlayer_state. unfold players_ok. cbn.
  split; [apply RegistryFacts.NoDup_keys_set, Hkeys|]. split.
  - rewrite values_set_absent_snd by exact Hnone.
    apply NoDup_app; [exact Hvals | repeat constructor; simpl; tauto |].
    intros r Hr [<-|[]].
    apply in_map_iff in Hr. destruct Hr as ([k r'] & E & Hin). simpl in E. subst r'.
    apply Hvalid in Hin. lia.
  - intros k r Hin. rewrite length_app. simpl.
    apply RegistryFacts.In_set in Hin. destruct Hin as [[_ ->]|Hin].
    + lia.
    + apply Hvalid in Hin. lia.
Qed.

Lemma createConnection_players_ok_witness : players_ok Sample.withPlayer.
Proof.
  apply (createConnection_players_ok (Sample.connect None) Sample.activated).
  split; [constructor|]. split; [constructor|]. intros k r [].
Defined.

(** ** Packet routing *)

(** What a connection update changes in the heap: the connection of
    the one player, by the one update. *)
Lemma update_connection_heap player setter this :
  update_connection player setter this
  = (Return tt,
     Poru.set_heap
       (heap_update player
          (fun p => Player.with_connection (setter (Player.connection p)) p)
          (Poru.heap this))
       this).
Proof. reflexivity. Qed.

Lemma forwarded player update this :
  let this' :=
    Poru.set_heap
      (heap_update player
         (fun p =>
            Player.with_connection (update :: Player.connection p) p)
         (Poru.heap this))
      this in
  (forall object,
      heap_get player (Poru.heap this) = Some object ->
      exists object',
        heap_get player (Poru.heap this') = Some object' /\
        Player.connection object' = update :: Player.connection object /\
        Player.guildId object' = Player.guildId object /\
        Player.node object' = Player.node object) /\
  (forall r, r <> player ->
             heap_get r (Poru.heap this') = heap_get r (Poru.heap this)) /\
  Poru.players this' = Poru.players this /\
  Poru.nodes this' = Poru.nodes this /\
  Poru.calls this' = Poru.calls this.
Proof.
  cbn. split; [|split; [|auto]].
  - intros object H. rewrite RegistryFacts.heap_update_same, H. cbn. eauto.
  - intros r Hr. apply RegistryFacts.heap_update_other. congruence.
Qed.

(** X15.  A voice-server-update for a session key that has a player
    reaches the connection of this player, whoever the acting user is:
    the update is the latest the connection has received, the player
    keeps its session key and its node, and no other player, no
    registry and no collaborator is touched. *)
Theorem packetUpdate_server_update_forwarded this packet data player :
  Packet.t packet = Some "VOICE_SERVER_UPDATE" ->
  Packet.d packet = Some data ->
  get (PacketData.guild_id data) this = Some player ->
  let this' := after (packetUpdate packet) this in
  result (packetUpdate packet) this = Return tt /\
  (forall object,
      heap_get player (Poru.heap this) = Some object ->
      exists object',
        heap_get player (Poru.heap this') = Some object' /\
        Player.connection object'
        = Connection.ServersUpdate data :: Player.connection object /\
        Player.guildId object' = Player.guildId object /\
        Player.node object' = Player.node object) /\
  (forall r, r <> player ->
             heap_get r (Poru.heap this') = heap_get r (Poru.heap this)) /\
  Poru.players this' = Poru.players this /\
  Poru.nodes this' = Poru.nodes this /\
  Poru.calls this' = Poru.calls this.
Proof.
  intros Ht Hd Hget. cbv zeta.
  assert (E : packetUpdate packet this
              = update_connection player (Connection.setServersUpdate data) this).
  { unfold packetUpdate, get in *. run. rewrite Ht, Hd. cbn. rewrite Hget.
    reflexivity. }
  unfold after, result. rewrite E, update_connection_heap. cbn [fst snd].
  split; [reflexivity|].
  apply (forwarded player (Connection.ServersUpdate data) this).
Qed.

Lemma packetUpdate_server_update_forwarded_witness :
  exists object',
    heap_get 0
      (Poru.heap
         (after
            (packetUpdate
               (Packet.new (Some "VOICE_SERVER_UPDATE") (Some Sample.serverUpdate)))
            Sample.withPlayer))
    = Some object' /\
    Player.connection object' = [Connection.ServersUpdate Sample.serverUpdate] /\
    Player.guildId object' = "guild-1" /\
    Player.node object' = Sample.euNode.
Proof.
  destruct (packetUpdate_server_update_forwarded Sample.withPlayer
              (Packet.new (Some "VOICE_SERVER_UPDATE") (Some Sample.serverUpdate))
              Sample.serverUpdate 0 eq_refl eq_refl eq_refl) as (_ & H & _).
  apply (H (Player.new Sample.euNode (Sample.connect None))). reflexivity.
Defined.

(** X16.  A voice-state-update whose acting user is the instance itself
    reaches the connection of the player of its session key in the
    same way. *)
Theorem packetUpdate_state_update_forwarded this packet data player user :
  Packet.t packet = Some "VOICE_STATE_UPDATE" ->
  Packet.d packet = Some data ->
  get (PacketData.guild_id data) this = Some player ->
  PacketData.user_id data = Some user ->
  Poru.userId this = Some user ->
  let this' := after (packetUpdate packet) this in
  result (packetUpdate packet) this = Return tt /\
  (forall object,
      heap_get player (Poru.heap this) = Some object ->
      exists object',
        heap_get player (Poru.heap this') = Some object' /\
        Player.connection object'
        = Connection.StateUpdate data :: Player.connection object /\
        Player.guildId object' = Player.guildId object /\
        Player.node object' = Player.node object) /\
  (forall r, r <> player ->
             heap_get r (Poru.heap this') = heap_get r (Poru.heap this)) /\
  Poru.players this' = Poru.players this /\
  Poru.nodes this' = Poru.nodes this /\
  Poru.calls this' = Poru.calls this.
Proof.
  intros Ht Hd Hget Huser Hself. cbv zeta.
  assert (E : packetUpdate packet this
              = update_connection player (Connection.setStateUpdate data) this).
  { unfold packetUpdate, get in *. run. rewrite Ht, Hd. cbn. rewrite Hget.
    cbn. rewrite Huser, Hself. cbn. rewrite String.eqb_refl. reflexivity. }
  unfold after, result. rewrite E, update_connection_heap. cbn [fst snd].
  split; [reflexivity|].
  apply (forwarded player (Connection.StateUpdate data) this).
Qed.

Lemma packetUpdate_state_update_forwarded_witness :
  exists object',
    heap_get 0
      (Poru.heap
         (after
            (packetUpdate
               (Packet.new (Some "VOICE_STATE_UPDATE")
                  (Some (Sample.stateUpdate "1000"))))
            Sample.withPlayer))
    = Some object' /\
    Player.connection object'
    = [Connection.StateUpdate (Sample.stateUpdate "1000")] /\
    Player.guildId object' = "guild-1" /\
    Player.node object' = Sample.euNode.
Proof.
  destruct (packetUpdate_state_update_forwarded Sample.withPlayer
              (Packet.new (Some "VOICE_STATE_UPDATE")
                 (Some (Sample.stateUpdate "1000")))
              (Sample.stateUpdate "1000") 0 "1000"
              eq_refl eq_refl eq_refl eq_refl eq_refl) as (_ & H & _).
  apply (H (Player.new Sample.euNode (Sample.connect None))). reflexivity.
Defined.

(** The ways of [packetUpdate]: it returns and changes nothing, or
    throws for want of a payload and changes nothing, or passes one
    update to the connection of one player. *)
Lemma packetUpdate_cases packet this :
  packetUpdate packet this = (Return tt, this) \/
  (isVoiceKind (Packet.t packet) = true /\ Packet.d packet = None /\
   packetUpdate packet this = (Throw (NullProperty "guild_id"), this)) \/
  (exists player setter,
      Packet.d packet <> None /\
      packetUpdate packet this = update_connection player setter this).
Proof.
  unfold packetUpdate. run.
  destruct (isVoiceKind (Packet.t packet)); cbn [negb]; [|auto].
  destruct (Packet.d packet) as [data|]; [|auto].
  destruct (JsMap.get _ (Poru.players this)) as [player|]; [|auto].
  destruct (isKind "VOICE_SERVER_UPDATE" (Packet.t packet)) eqn:Eserver;
    destruct (isKind "VOICE_STATE_UPDATE" (Packet.t packet)) eqn:Estate.
  - exfalso. destruct (Packet.t packet) as [k|]; [|discriminate].
    cbn in Eserver, Estate.
    apply String.eqb_eq in Eserver. subst. discriminate.
  - right. right. exists player. eexists. split; [discriminate|reflexivity].
  - cbn. destruct (strict_neq _ _); [auto|].
    right. right. exists player. eexists. split; [discriminate|reflexivity].
  - auto.
Qed.

(** X17.  [packetUpdate] throws in one case alone: a packet of a voice
    kind that carries no payload, on which it throws a [TypeError]. *)
Theorem packetUpdate_throws_iff packet this e :
  result (packetUpdate packet) this = Throw e <->
  isVoiceKind (Packet.t packet) = true /\ Packet.d packet = None /\
  e = NullProperty "guild_id".
Proof.
  unfold result. split.
  - destruct (packetUpdate_cases packet this)
      as [->|[(Hk & Hd & ->)|(player & setter & _ & ->)]]; cbn.
    + discriminate.
    + intros H. inversion H. auto.
    + discriminate.
  - intros (Hk & Hd & ->). unfold packetUpdate. run.
    rewrite Hk, Hd. reflexivity.
Qed.

(** X18.  Whatever the packet, [packetUpdate] leaves the two
    registries, the options, the identity, the activation, the send
    function and the calls as they are, creates and removes no player
    object, and leaves every player with its session key and its
    node. *)
Theorem packetUpdate_frame packet this :
  let this' := after (packetUpdate packet) this in
  Poru.nodes this' = Poru.nodes this /\
  Poru.players this' = Poru.players this /\
  Poru.options this' = Poru.options this /\
  Poru.userId this' = Poru.userId this /\
  Poru.isActivated this' = Poru.isActivated this /\
  Poru.send this' = Poru.send this /\
  Poru.calls this' = Poru.calls this /\
  List.length (Poru.heap this') = List.length (Poru.heap this) /\
  (forall r object,
      heap_get r (Poru.heap this) = Some object ->
      exists object',
        heap_get r (Poru.heap this') = Some object' /\
        Player.guildId object' = Player.guildId object /\
        Player.node object' = Player.node object).
Proof.
  cbv zeta. unfold after.
  destruct (packetUpdate_cases packet this)
    as [->|[(_ & _ & ->)|(player & setter & _ & ->)]]; cbn [snd];
    try (repeat split; eauto; fail).
  rewrite update_connection_heap. cbn.
  repeat split; try reflexivity.
  - apply RegistryFacts.heap_update_length.
  - intros r object H. destruct (Nat.eq_dec player r) as [<-|Hne].
    + rewrite RegistryFacts.heap_update_same, H. cbn. eauto.
    + rewrite RegistryFacts.heap_update_other by exact Hne. eauto.
Qed.

(** ** Activation *)

Lemma forEach_registerNode_state l :
  forall this,
    forEach l registerNode this
    = (Return tt,
       Poru.set_calls (connectCalls l ++ Poru.calls this)%list
         (Poru.set_nodes (registerAll l (Poru.nodes this)) this)).
Proof.
  induction l as [|g l IH]; intros this.
  - destruct this; reflexivity.
  - cbn [forEach]. unfold registerNode at 1, addNode. run. rewrite IH.
    unfold connectCalls, registerAll. cbn [map rev fold_left].
    rewrite <- app_assoc. destruct this; reflexivity.
Qed.

Lemma forEach_loadPlugin_state l :
  forall this,
    forEach l loadPlugin this
    = (Return tt,
       Poru.set_calls (rev (map PluginLoad l) ++ Poru.calls this)%list this).
Proof.
  induction l as [|p l IH]; intros this.
  - destruct this; reflexivity.
  - cbn [forEach]. unfold loadPlugin at 1. run. rewrite IH.
    cbn [map rev]. rewrite <- app_assoc. destruct this; reflexivity.
Qed.

(** The instance on which [init] chooses the adapter. *)
Lemma init_ready client this id :
  Poru.isActivated this = false ->
  Client.user_id client = Some id ->
  exists ready,
    init client this = selectAdapter ready /\
    Poru.isActivated ready = true /\
    Poru.userId ready = Some id /\
    Poru.send ready = Poru.send this /\
    Poru.players ready = Poru.players this /\
    Poru.heap ready = Poru.heap this /\
    Poru.nodes ready = registerAll (Poru._nodes this) (Poru.nodes this) /\
    Poru.calls ready
    = (match PoruOptions.plugins (Poru.options this) with
       | Some plugins => rev (map PluginLoad plugins)
       | None => []
       end ++ connectCalls (Poru._nodes this) ++ Poru.calls this)%list /\
    Poru.options ready
    = if falsy (PoruOptions.library (Poru.options this))
      then PoruOptions.with_library (Some "discord.js") (Poru.options this)
      else Poru.options this.
Proof.
  intros Hact Hid. unfold init. run. rewrite Hact, Hid.
  rewrite forEach_registerNode_state.
  destruct (PoruOptions.plugins (Poru.options this)) as [plugins|].
  - rewrite forEach_loadPlugin_state.
    destruct (falsy (PoruOptions.library (Poru.options this)));
      eexists; (split; [reflexivity|]); cbn; auto 10.
  - destruct (falsy (PoruOptions.library (Poru.options this)));
      eexists; (split; [reflexivity|]); cbn; auto 10.
Qed.

Lemma selectAdapter_frame this :
  let this' := snd (selectAdapter this) in
  Poru.nodes this' = Poru.nodes this /\
  Poru.players this' = Poru.players this /\
  Poru.heap this' = Poru.heap this /\
  Poru.userId this' = Poru.userId this /\
  Poru.options this' = Poru.options this /\
  Poru.isActivated this' = Poru.isActivated this /\
  exists subscribed, Poru.calls this' = (subscribed ++ Poru.calls this)%list.
Proof.
  cbv zeta. unfold selectAdapter. run.
  destruct (PoruOptions.library (Poru.options this)) as [library|];
    [|repeat split; exists []; reflexivity].
  repeat match goal with
         | |- context [String.eqb ?a ?b] => destruct (String.eqb a b)
         end; cbn;
    try (repeat (split; [reflexivity|]);
         first [ exists [ClientOn "raw"]; reflexivity
               | exists [ClientOn "rawWS"]; reflexivity
               | exists [ClientOn "packet"]; reflexivity
               | exists []; reflexivity ]).
  destruct (Poru.send this); cbn; repeat (split; [reflexivity|]);
    exists []; reflexivity.
Qed.

(** X19.  Before the client is ready ([client.user] is [null]) [init]
    throws a [TypeError] on an instance that is not activated, and
    changes nothing: the instance is still not activated and no node
    is registered. *)
Theorem init_client_not_ready client this :
  Poru.isActivated this = false ->
  Client.user_id client = None ->
  init client this = (Throw (NullProperty "id"), this).
Proof. intros Hact Hid. unfold init. run. rewrite Hact, Hid. reflexivity. Qed.

Lemma init_client_not_ready_witness :
  init Scenario.notReady (Scenario.fresh None None)
  = (Throw (TypeError "Cannot read properties of null (reading 'id')"),
     Scenario.fresh None None).
Proof.
  apply (init_client_not_ready Scenario.notReady (Scenario.fresh None None));
    reflexivity.
Defined.

(** X20.  After an [init] with a client that is ready, whether it
    returned or threw, every further [init] returns at once and
    changes nothing. *)
Theorem init_once client client' this id :
  Client.user_id client = Some id ->
  init client' (after (init client) this)
  = (Return tt, after (init client) this).
Proof.
  intros Hid.
  assert (Hact : Poru.isActivated (after (init client) this) = true).
  { destruct (Poru.isActivated this) eqn:E.
    - unfold after, init. run. rewrite E. exact E.
    - destruct (init_reaches_adapter client this id E Hid)
        as (ready & Heq & Hready & _).
      unfold after. rewrite Heq, selectAdapter_isActivated. exact Hready. }
  unfold init at 1. run. rewrite Hact. reflexivity.
Qed.

Lemma init_once_witness :
  init Scenario.notReady (after (init Sample.client) Sample.freshOtherNoSend)
  = (Return tt, after (init Sample.client) Sample.freshOtherNoSend).
Proof.
  apply (init_once Sample.client Scenario.notReady Sample.freshOtherNoSend "1000").
  reflexivity.
Defined.

Lemma registerAll_get l :
  forall m k,
    (In k (map NodeGroup.name l) \/ JsMap.get k m <> None) ->
    JsMap.get k (registerAll l m) <> None.
Proof.
  unfold registerAll.
  induction l as [|g l IH]; intros m k H; cbn [fold_left map In] in *.
  - tauto.
  - apply IH. destruct (string_dec (NodeGroup.name g) k) as [<-|Hne].
    + right. rewrite JsMapFacts.get_set. discriminate.
    + rewrite JsMapFacts.get_set_other by exact Hne. tauto.
Qed.

Lemma registerAll_NoDup l :
  forall m, NoDup (map fst m) -> NoDup (map fst (registerAll l m)).
Proof.
  unfold registerAll.
  induction l as [|g l IH]; intros m H; cbn [fold_left]; [exact H|].
  apply IH, RegistryFacts.NoDup_keys_set, H.
Qed.

(** X21.  An [init] with a client that is ready, on an instance that is
    not activated, registers every configured node, whether it returns
    or throws afterwards: each configured name and each name that was
    registered before reads a handle, the registry holds no name twice
    if it did not before, the handles were asked to connect in the
    order of the configuration, the identity of the client is
    recorded, and no player is touched. *)
Theorem init_registers_nodes client this id :
  Poru.isActivated this = false ->
  Client.user_id client = Some id ->
  let this' := after (init client) this in
  (forall g, In g (Poru._nodes this) ->
             JsMap.get (NodeGroup.name g) (Poru.nodes this') <> None) /\
  (forall k, JsMap.get k (Poru.nodes this) <> None ->
             JsMap.get k (Poru.nodes this') <> None) /\
  (NoDup (map fst (Poru.nodes this)) -> NoDup (map fst (Poru.nodes this'))) /\
  (exists later,
      Poru.calls this'
      = (later ++ connectCalls (Poru._nodes this) ++ Poru.calls this)%list) /\
  Poru.userId this' = Some id /\
  Poru.players this' = Poru.players this /\
  Poru.heap this' = Poru.heap this.
Proof.
  intros Hact Hid. cbv zeta.
  destruct (init_ready client this id Hact Hid)
    as (ready & Heq & _ & Huser & _ & Hplayers & Hheap & Hnodes & Hcalls & _).
  destruct (selectAdapter_frame ready)
    as (Fnodes & Fplayers & Fheap & Fuser & _ & _ & subscribed & Fcalls).
  unfold after. rewrite Heq, Fnodes, Fplayers, Fheap, Fuser, Fcalls, Hnodes, Hcalls.
  split; [|split; [|split; [|split; [|auto]]]].
  - intros g Hg. apply registerAll_get. left. apply in_map, Hg.
  - intros k Hk. apply registerAll_get. auto.
  - apply registerAll_NoDup.
  - eexists. rewrite app_assoc. reflexivity.
Qed.

Lemma init_registers_nodes_witness :
  JsMap.get "eu-1"
    (Poru.nodes (after (init Sample.client) (Scenario.fresh (Some "other") None)))
  <> None.
Proof.
  destruct (init_registers_nodes Sample.client (Scenario.fresh (Some "other") None)
              "1000" eq_refl eq_refl) as (H & _).
  apply (H Sample.euGroup). right. left. reflexivity.
Defined.

Lemma selectAdapter_named this library fn event :
  In (library, fn, event) adapters ->
  PoruOptions.library (Poru.options this) = Some library ->
  selectAdapter this
  = (Return tt,
     Poru.set_calls (ClientOn event :: Poru.calls this)
       (Poru.set_send (Some fn) this)).
Proof.
  intros Hin Hlib. unfold selectAdapter. run. rewrite Hlib.
  destruct Hin as [E|[E|[E|[]]]]; inversion E; subst; reflexivity.
Qed.

(** X22.  With no library in the options, or the empty one, an [init]
    with a client that is ready completes as for ["discord.js"]: the
    library is written into the options, the send function is the one
    of discord.js, and the instance subscribes to the [raw] packets of
    the client. *)
Theorem init_default_library client this id :
  Poru.isActivated this = false ->
  Client.user_id client = Some id ->
  (PoruOptions.library (Poru.options this) = None \/
   PoruOptions.library (Poru.options this) = Some "") ->
  let this' := after (init client) this in
  result (init client) this = Return tt /\
  PoruOptions.library (Poru.options this') = Some "discord.js" /\
  Poru.send this' = Some SendDiscordJs /\
  Poru.isActivated this' = true /\
  exists earlier, Poru.calls this' = ClientOn "raw" :: earlier.
Proof.
  intros Hact Hid Hlib. cbv zeta.
  destruct (init_ready client this id Hact Hid)
    as (ready & Heq & Hready & _ & _ & _ & _ & _ & _ & Hopts).
  assert (Hf : falsy (PoruOptions.library (Poru.options this)) = true)
    by (destruct Hlib as [-> | ->]; reflexivity).
  rewrite Hf in Hopts.
  unfold result, after. rewrite Heq.
  rewrite (selectAdapter_named ready "discord.js" SendDiscordJs "raw");
    [|left; reflexivity | rewrite Hopts; reflexivity].
  cbn. rewrite Hopts. cbn. eauto 6.
Qed.

Lemma init_default_library_witness :
  Poru.send (after (init Sample.client) (Scenario.fresh None None))
  = Some SendDiscordJs.
Proof.
  destruct (init_default_library Sample.client (Scenario.fresh None None) "1000"
              eq_refl eq_refl (or_introl eq_refl)) as (_ & _ & H & _).
  exact H.
Defined.

(** X23.  For each of the libraries ["discord.js"], ["eris"] and
    ["oceanic"], an [init] with a client that is ready completes,
    installs the send function of the library and subscribes to the
    event of the library ([raw], [rawWS], [packet]); a send function
    in the options is not looked at. *)
Theorem init_named_adapter client this id library fn event :
  Poru.isActivated this = false ->
  Client.user_id client = Some id ->
  In (library, fn, event) adapters ->
  PoruOptions.library (Poru.options this) = Some library ->
  let this' := after (init client) this in
  result (init client) this = Return tt /\
  Poru.send this' = Some fn /\
  Poru.isActivated this' = true /\
  Poru.options this' = Poru.options this /\
  exists earlier, Poru.calls this' = ClientOn event :: earlier.
Proof.
  intros Hact Hid Hin Hlib. cbv zeta.
  destruct (init_ready client this id Hact Hid)
    as (ready & Heq & Hready & _ & _ & _ & _ & _ & _ & Hopts).
  assert (Hf : falsy (PoruOptions.library (Poru.options this)) = false).
  { rewrite Hlib. destruct Hin as [E|[E|[E|[]]]]; inversion E; reflexivity. }
  rewrite Hf in Hopts.
  unfold result, after. rewrite Heq.
  rewrite (selectAdapter_named ready library fn event Hin)
    by (rewrite Hopts; exact Hlib).
  cbn. eauto 6.
Qed.

Lemma init_named_adapter_witness :
  Poru.send
    (after (init Sample.client) (Scenario.fresh (Some "eris") (Some (SendCustom 0))))
  = Some SendEris.
Proof.
  destruct (init_named_adapter Sample.client
              (Scenario.fresh (Some "eris") (Some (SendCustom 0))) "1000"
              "eris" SendEris "rawWS" eq_refl eq_refl
              (or_intror (or_introl eq_refl)) eq_refl) as (_ & H & _).
  exact H.
Defined.

(** X24.  With a library that is none of ["discord.js"], ["eris"],
    ["oceanic"] and ["other"], an [init] with a client that is ready
    completes and activates the instance without an adapter: the send
    function stays what it was, and no packet of the client is
    subscribed to. *)
Theorem init_unknown_library client this id library :
  Poru.isActivated this = false ->
  Client.user_id client = Some id ->
  PoruOptions.library (Poru.options this) = Some library ->
  library <> "" ->
  ~ In library ["discord.js"; "eris"; "oceanic"; "other"] ->
  let this' := after (init client) this in
  result (init client) this = Return tt /\
  Poru.isActivated this' = true /\
  Poru.send this' = Poru.send this /\
  (forall event, In (ClientOn event) (Poru.calls this') ->
                 In (ClientOn event) (Poru.calls this)).
Proof.
  intros Hact Hid Hlib Hne Hnot. cbv zeta.
  destruct (init_ready client this id Hact Hid)
    as (ready & Heq & Hready & _ & Hsend & _ & _ & _ & Hcalls & Hopts).
  assert (Hf : falsy (PoruOptions.library (Poru.options this)) = false).
  { rewrite Hlib. destruct library; [congruence|reflexivity]. }
  rewrite Hf in Hopts.
  assert (E : selectAdapter ready = (Return tt, ready)).
  { unfold selectAdapter. run. rewrite Hopts, Hlib.
    repeat match goal with
           | |- context [String.eqb ?a ?b] =>
               destruct (String.eqb_spec a b);
               [exfalso; apply Hnot; subst; simpl; tauto|]
           end.
    reflexivity. }
  unfold result, after. rewrite Heq, E. cbn.
  split; [reflexivity|]. split; [exact Hready|]. split; [exact Hsend|].
  intros event. rewrite Hcalls. intros H.
  apply in_app_or in H. destruct H as [H|H].
  - exfalso. destruct (PoruOptions.plugins (Poru.options this)) as [plugins|];
      [|destruct H].
    apply in_rev, in_map_iff in H. destruct H as (p & E' & _). discriminate.
  - apply in_app_or in H. destruct H as [H|H]; [|exact H].
    exfalso. unfold connectCalls in H.
    apply in_rev, in_map_iff in H. destruct H as (g & E' & _). discriminate.
Qed.

Lemma init_unknown_library_witness :
  result (init Sample.client) (Scenario.fresh (Some "revolt") None) = Return tt /\
  Poru.send (after (init Sample.client) (Scenario.fresh (Some "revolt") None)) = None.
Proof.
  destruct (init_unknown_library Sample.client (Scenario.fresh (Some "revolt") None)
              "1000" "revolt" eq_refl eq_refl eq_refl) as (H1 & _ & H2 & _).
  - discriminate.
  - simpl. intuition discriminate.
  - split; [exact H1 | exact H2].
Defined.

(** X25.  With the library ["other"], an [init] with a client that is
    ready completes exactly when the field [send] of the instance is
    set beforehand, and then replaces it by the send function of the
    options, be there one or not. *)
Theorem init_other_preset_send client this id :
  Poru.isActivated this = false ->
  Client.user_id client = Some id ->
  PoruOptions.library (Poru.options this) = Some "other" ->
  (result (init client) this = Return tt <-> Poru.send this <> None) /\
  (Poru.send this <> None ->
   Poru.send (after (init client) this) = PoruOptions.send (Poru.options this)).
Proof.
  intros Hact Hid Hlib.
  destruct (init_ready client this id Hact Hid)
    as (ready & Heq & _ & _ & Hsend & _ & _ & _ & _ & Hopts).
  rewrite Hlib in Hopts. cbn in Hopts.
  unfold result, after. rewrite Heq. unfold selectAdapter. run.
  rewrite Hopts, Hlib, Hsend. cbn.
  destruct (Poru.send this); cbn; rewrite ?Hopts.
  - split; [split; [discriminate|reflexivity] | reflexivity].
  - split; [split; [discriminate|congruence] | congruence].
Qed.

Lemma init_other_preset_send_witness :
  Poru.send
    (after (init Sample.client)
       (Poru.set_send (Some (SendCustom 1)) (Scenario.fresh (Some "other") None)))
  = None.
Proof.
  destruct (init_other_preset_send Sample.client
              (Poru.set_send (Some (SendCustom 1)) (Scenario.fresh (Some "other") None))
              "1000" eq_refl eq_refl eq_refl) as (_ & H).
  apply H. discriminate.
Defined.

(** ** Track resolution and decoding *)

(** X26.  With no node given and no node connected, [resolve] on an
    activated instance fails with "No nodes are available." while
    [decodeTrack], which does not test for a node, throws a
    [TypeError]; neither sends a request nor changes anything. *)
Theorem no_node_for_request this :
  (forall node, In node (JsMap.values (Poru.nodes this)) ->
                Node.isConnected node = false) ->
  (Poru.isActivated this = true ->
   forall o, resolve o None this = (Throw NoNodesAvailableResolve, this)) /\
  (forall track,
      decodeTrack track None this = (Throw (UndefinedProperty "rest"), this)).
Proof.
  intros Hdown.
  assert (E : leastUsedNodes this = []).
  { unfold leastUsedNodes. rewrite JsArrayFacts.filter_none by exact Hdown.
    reflexivity. }
  split.
  - intros Hact o. unfold resolve. run. rewrite Hact, E. reflexivity.
  - intros track. unfold decodeTrack. run. rewrite E. reflexivity.
Qed.

Lemma no_node_for_request_witness :
  resolve (ResolveOptions.new "rick astley" None None) None Scenario.idle
  = (Throw (Error "No nodes are available."), Scenario.idle) /\
  decodeTrack "QAAAjQIA" None Scenario.idle
  = (Throw (TypeError "Cannot read properties of undefined (reading 'rest')"),
     Scenario.idle).
Proof.
  destruct (no_node_for_request Scenario.idle) as [H1 H2].
  - intros node [<-|[]]. reflexivity.
  - split; [apply H1; reflexivity | apply H2].
Defined.

(** X27.  On an activated instance [resolve] sends its request to the
    node it is given, be this node connected, or registered, or not;
    without a node it sends it to the first of [leastUsedNodes].  The
    requester comes back in the response. *)
Theorem resolve_target this o :
  Poru.isActivated this = true ->
  (forall n, exists path,
      result (resolve o (Some n)) this
      = Return (Response.new (RestGet (Node.name n) path)
                  (ResolveOptions.requester o))) /\
  (forall n rest,
      leastUsedNodes this = n :: rest ->
      exists path,
        result (resolve o None) this
        = Return (Response.new (RestGet (Node.name n) path)
                    (ResolveOptions.requester o))).
Proof.
  intros Hact. split.
  - intros n. unfold resolve, restGet. run. rewrite Hact. cbn [negb].
    destruct (JsString.isUrl (ResolveOptions.query o)); eexists; reflexivity.
  - intros n rest E. unfold resolve, restGet. run. rewrite Hact, E.
    cbn [negb nth_error].
    destruct (JsString.isUrl (ResolveOptions.query o)); eexists; reflexivity.
Qed.

Lemma resolve_target_witness :
  exists path,
    result
      (resolve (ResolveOptions.new "rick astley" None (Some "user-1"))
         (Some Sample.usNode))
      Sample.activated
    = Return (Response.new (RestGet "us-1" path) (Some "user-1")).
Proof.
  destruct (resolve_target Sample.activated
              (ResolveOptions.new "rick astley" None (Some "user-1")) eq_refl)
    as [H _].
  apply (H Sample.usNode).
Defined.



Lemma hex_digit_safe c :
  urlSafe (JsString.hex_digit (nat_of_ascii c / 16)) = true /\
  urlSafe (JsString.hex_digit (nat_of_ascii c mod 16)) = true.
Proof. destruct c as [[] [] [] [] [] [] [] []]; split; reflexivity. Qed.

Lemma encodeURIComponent_safe s :
  Forall (fun c => urlSafe c = true)
    (list_ascii_of_string (JsString.encodeURIComponent s)).
Proof.
  induction s as [|c s IH]; cbn [JsString.encodeURIComponent]; [constructor|].
  destruct (JsString.unescaped c) eqn:E; cbn [list_ascii_of_string].
  - constructor; [|exact IH]. unfold urlSafe. rewrite E. reflexivity.
  - destruct (hex_digit_safe c) as [Hhi Hlo].
    repeat constructor; assumption.
Qed.

(** X29.  Whatever the query and the source, the identifier in the
    request of [resolve] is made of unescaped characters and escapes
    alone: no space, [&], [=], [#], [?] or [/] of the query reaches the
    query string of the request. *)
Theorem resolve_identifier_url_safe this o node name path requester :
  result (resolve o node) this
  = Return (Response.new (RestGet name path) requester) ->
  exists identifier,
    path = loadTracks ++ identifier /\
    Forall (fun c => urlSafe c = true) (list_ascii_of_string identifier).
Proof.
  unfold resolve, restGet. run.
  destruct (Poru.isActivated this); cbn [negb]; [|discriminate].
  destruct (match node with Some n => Some n | None => _ end) as [target|];
    [|discriminate].
  destruct (JsString.isUrl (ResolveOptions.query o)); cbn;
    intros H; inversion H; eexists; (split; [reflexivity|]);
    apply encodeURIComponent_safe.
Qed.

Lemma resolve_identifier_url_safe_witness :
  exists identifier,
    "/v3/loadtracks?identifier=ytsearch%3Aa%26b%20c%3Fd"
    = loadTracks ++ identifier /\
    Forall (fun c => urlSafe c = true) (list_ascii_of_string identifier).
Proof.
  apply (resolve_identifier_url_safe Sample.activated
           (ResolveOptions.new "a&b c?d" None None) None "eu-1" _ None).
  reflexivity.
Defined.

(** ** Operations together *)

(** X30.  A player that [createConnection] has returned receives the
    voice-server-update of its session: on an instance whose player
    registry is sound, the update that follows the call is the latest
    that the connection of the returned player holds. *)
Theorem createConnection_then_server_update
    this options player this' packet data :
  players_ok this ->
  createConnection options this = (Return player, this') ->
  Packet.t packet = Some "VOICE_SERVER_UPDATE" ->
  Packet.d packet = Some data ->
  PacketData.guild_id data = ConnectionOptions.guildId options ->
  exists object object',
    heap_get player (Poru.heap this') = Some object /\
    heap_get player (Poru.heap (after (packetUpdate packet) this'))
    = Some object' /\
    Player.connection object'
    = Connection.ServersUpdate data :: Player.connection object.
Proof.
  intros Hok Hcreate Ht Hd Hkey.
  assert (Hget : get (PacketData.guild_id data) this' = Some player).
  { rewrite Hkey. apply (createConnection_returns _ _ _ _ Hcreate). }
  assert (Hobject : exists object, heap_get player (Poru.heap this') = Some object).
  { destruct (createConnection_cases options this)
      as [[e E]|[(p & Hp & E)|(node & Hnone & E)]];
      rewrite E in Hcreate.
    - discriminate.
    - inversion Hcreate; subst.
      destruct Hok as (_ & _ & Hvalid).
      apply RegistryFacts.get_In, Hvalid in Hp.
      unfold heap_get. destruct (nth_error (Poru.heap this') player) eqn:N;
        [eauto|]. apply nth_error_None in N. lia.
    - rewrite createPlayer_state in Hcreate. inversion Hcreate; subst. cbn.
      eexists. apply heap_get_new. }
  destruct Hobject as [object Hobject]. exists object.
  assert (E : packetUpdate packet this'
              = update_connection player (Connection.setServersUpdate data) this').
  { unfold packetUpdate, get in *. run. rewrite Ht, Hd. cbn. rewrite Hget.
    reflexivity. }
  unfold after. rewrite E, update_connection_heap. cbn [snd].
  destruct (forwarded player (Connection.ServersUpdate data) this') as (H & _).
  destruct (H object Hobject) as (object' & H1 & H2 & _).
  exists object'. auto.
Qed.

Lemma createConnection_then_server_update_witness :
  exists object object',
    heap_get 0 (Poru.heap Sample.withPlayer) = Some object /\
    heap_get 0
      (Poru.heap
         (after
            (packetUpdate
               (Packet.new (Some "VOICE_SERVER_UPDATE") (Some Sample.serverUpdate)))
            Sample.withPlayer))
    = Some object' /\
    Player.connection object'
    = Connection.ServersUpdate Sample.serverUpdate :: Player.connection object.
Proof.
  apply (createConnection_then_server_update Sample.activated
           (Sample.connect None) 0 Sample.withPlayer
           (Packet.new (Some "VOICE_SERVER_UPDATE") (Some Sample.serverUpdate))
           Sample.serverUpdate).
  - split; [constructor|]. split; [constructor|]. intros k r [].
  - reflexivity.
  - reflexivity.
  - reflexivity.
  - reflexivity.
Defined.
